(** * architect_layout.py: site discretizer and greedy shelf packer

    A shallow embedding of the layout engine of [architect_layout.py]
    (the helper functions and the body of [if generate_btn:] up to the
    coverage figure) together with the properties of its specification.

    Numbers.  The measurements of the script are Python floats.  In the
    engine they are modelled as exact rationals ([Q], compared with [==]):
    neither the rounding error of float arithmetic nor the overflow of a
    quotient to an infinity (on which [round] raises [OverflowError]) is
    modelled there.  The helper [to_grid] is given a second time on binary64
    floats ([to_grid_float]), with the machine's rounded division and the
    exceptions of [round]; what depends on the last bit of a quotient is
    stated on that version.  [grid_snap_cm] and [bedrooms_count] are Python
    ints ([Z]).  Grid cells are ints ([Z]).

    Failure.  A run either stops at [st.error(...); st.stop()], dies with
    an uncaught Python exception, or reaches the coverage line. *)

From Stdlib Require Import QArith Qround Lqa Sorting.Sorted Sorting.Permutation.
From Stdlib Require Import PrimFloat FloatOps SpecFloat.
From stdpp Require Import gmap strings list fin_maps pretty.

Local Open Scope Z_scope.

(** ** Python exceptions and the result of a fallible computation *)

Inductive py_error : Type :=
  | ZeroDivisionError
  | TypeError
  | OverflowError
  | ValueError.

Inductive except (A : Type) : Type :=
  | Ok (a : A)
  | Raise (e : py_error).
Arguments Ok {A} a.
Arguments Raise {A} e.

#[global] Instance except_bind : MBind except := λ A B k m,
  match m with
  | Ok a => k a
  | Raise e => Raise e
  end.

(** [a / b] on floats: a zero divisor raises. *)
Definition fdiv (a b : Q) : except Q :=
  if Qeq_bool b 0 then Raise ZeroDivisionError else Ok (a / b)%Q.

(** ** [round] and [max(1, int(round(...)))] *)

(** Python 3 [round(x)] on a float: the nearest integer, a tie going to
    the even neighbour. *)
Definition py_round (q : Q) : Z :=
  let f := Qfloor q in
  match (2 * (q - inject_Z f) ?= 1)%Q with
  | Lt => f
  | Gt => f + 1
  | Eq => if Z.even f then f else f + 1
  end.

(** ** Helper functions of the script *)

(** [def to_grid(meters, snap_cm)] *)
Definition to_grid (meters : Q) (snap_cm : Z) : except (Z * Q) :=
  let cell := (inject_Z snap_cm / 100)%Q in
  r ← fdiv meters cell;
  Ok (Z.max 1 (py_round r), cell).


(** ** [to_grid] on binary64 floats *)

(** Where a claim turns on the last bit of a quotient, the helper is also
    given on IEEE 754 binary64 numbers, the floats of Python, with the
    division rounded as the machine rounds it. *)

(** The rational a float stands for; none for an infinity or a NaN. *)
Definition float_value (f : float) : option Q :=
  match Prim2SF f with
  | S754_zero _ => Some 0%Q
  | S754_finite s m e =>
      Some ((if s then - inject_Z (Zpos m) else inject_Z (Zpos m)) * Qpower 2 e)%Q
  | S754_infinity _ => None
  | S754_nan => None
  end.

(** An int as the float operand of [/]: the nearest float, and
    [OverflowError] for an int too large for a float. *)
Definition int_to_float (n : Z) : except float :=
  let f := SF2Prim (binary_normalize prec emax n 0 false) in
  match Prim2SF f with
  | S754_infinity _ => Raise OverflowError
  | _ => Ok f
  end.

(** [a / b] on two floats: a zero divisor raises, anything else is the
    rounded quotient, an infinity on overflow. *)
Definition float_div (a b : float) : except float :=
  match Prim2SF b with
  | S754_zero _ => Raise ZeroDivisionError
  | _ => Ok (a / b)%float
  end.

(** [int(round(x))] on a float: [round] cannot convert a NaN
    ([ValueError]) or an infinity ([OverflowError]); on a finite float it
    rounds the exact value, a tie going to the even neighbour. *)
Definition float_round (x : float) : except Z :=
  match float_value x with
  | Some q => Ok (py_round q)
  | None =>
      match Prim2SF x with
      | S754_nan => Raise ValueError
      | _ => Raise OverflowError
      end
  end.

(** [max(1, int(round(m / cell_m)))], lines 37 and 91-92. *)
Definition cells_float (m cell_m : float) : except Z :=
  r ← float_div m cell_m;
  n ← float_round r;
  Ok (Z.max 1 n).

(** [cell = snap_cm / 100.0] *)
Definition snap_cell (snap_cm : Z) : except float :=
  s ← int_to_float snap_cm;
  float_div s 100%float.

(** [def to_grid(meters, snap_cm)] *)
Definition to_grid_float (meters : float) (snap_cm : Z) : except (Z * float) :=
  cell ← snap_cell snap_cm;
  n ← cells_float meters cell;
  Ok (n, cell).

(** A value of [x ** 0.5]: a float, or a complex number when [x] is
    negative.  Only the fact of being complex matters to the run. *)
Inductive pynum : Type :=
  | Float (q : Q)
  | Complex.

Definition as_float (n : pynum) : except Q :=
  match n with
  | Float q => Ok q
  | Complex => Raise TypeError
  end.

(** The sidebar inputs. *)
Record inputs : Type := {
  PLOT_WIDTH : Q;
  PLOT_DEPTH : Q;
  front_setback : Q;
  rear_setback : Q;
  left_setback : Q;
  right_setback : Q;
  grid_snap_cm : Z;
  car_w : Q;
  car_d : Q;
  bedroom_area : Q;
  bedrooms_count : Z;
  bath_area : Q;
  lounge_area : Q
}.

(** A room as built by the preparation code, and as the loop reads it:
    [(name, w_m, h_m)]. *)
Definition raw_room : Type := string * pynum * pynum.
Definition room : Type := string * Q * Q.

(** A placed rectangle [(x, y, w_cells, h_cells)]. *)
Abbreviation rect := (Z * Z * Z * Z)%type.

(** ** Sorting: [rooms.sort(key=..., reverse=True)] *)

(** Python's sort is stable, also under [reverse=True]: entries with equal
    keys keep their relative order.  A stable sort has one possible result,
    given here by insertion from the right: [x], which precedes all of [l]
    in the input, is put in front of the first entry whose key is not
    greater than its own. *)
Section Sort.
Context {A : Type} (key : A → Q).

Fixpoint insert_desc (x : A) (l : list A) : list A :=
  match l with
  | [] => [x]
  | y :: l' =>
      if Qle_bool (key y) (key x) then x :: y :: l'
      else y :: insert_desc x l'
  end.

Definition sort_desc (l : list A) : list A := foldr insert_desc [] l.

End Sort.

(** [key=lambda x: x[1]*x[2]] *)
Definition area_key (r : room) : Q :=
  let '(_, w_m, h_m) := r in (w_m * h_m)%Q.

(** ** The greedy placement loop *)

Record pack_state : Type := {
  cursor_x : Z;
  cursor_y : Z;
  max_row_height : Z;
  layout : gmap string rect;
  warnings : list string
}.

Definition init_state : pack_state :=
  {| cursor_x := 0; cursor_y := 0; max_row_height := 0;
     layout := ∅; warnings := [] |}.

(** [max(1, int(round(m / cell_m)))] *)
Definition cells (m cell_m : Q) : except Z :=
  r ← fdiv m cell_m;
  Ok (Z.max 1 (py_round r)).

(** The first [if] of the loop body: start a new shelf. *)
Definition wrap (build_w w_cells : Z) (s : pack_state) : pack_state :=
  if cursor_x s + w_cells >? build_w then
    {| cursor_x := 0;
       cursor_y := cursor_y s + max_row_height s;
       max_row_height := 0;
       layout := layout s;
       warnings := warnings s |}
  else s.

(** The rest of the loop body, on the cell sizes: warn and [continue], or
    write the rectangle into the [layout] dict and move the cursor. *)
Definition settle (build_h : Z) (name : string) (w_cells h_cells : Z)
    (s : pack_state) : pack_state :=
  if cursor_y s + h_cells >? build_h then
    {| cursor_x := cursor_x s;
       cursor_y := cursor_y s;
       max_row_height := max_row_height s;
       layout := layout s;
       warnings := warnings s ++ [name] |}
  else
    {| cursor_x := cursor_x s + w_cells;
       cursor_y := cursor_y s;
       max_row_height := Z.max (max_row_height s) h_cells;
       layout := <[name := (cursor_x s, cursor_y s, w_cells, h_cells)]> (layout s);
       warnings := warnings s |}.

(** One iteration of [for name, w_m, h_m in rooms]. *)
Definition place (build_w build_h : Z) (cell_m : Q) (s : pack_state)
    (r : room) : except pack_state :=
  let '(name, w_m, h_m) := r in
  w_cells ← cells w_m cell_m;
  h_cells ← cells h_m cell_m;
  Ok (settle build_h name w_cells h_cells (wrap build_w w_cells s)).

Fixpoint pack_from (build_w build_h : Z) (cell_m : Q) (s : pack_state)
    (rooms : list room) : except pack_state :=
  match rooms with
  | [] => Ok s
  | r :: rooms' =>
      s' ← place build_w build_h cell_m s r;
      pack_from build_w build_h cell_m s' rooms'
  end.

(** The loop, from [layout = {}] and the cursor at the origin. *)
Definition pack (build_w build_h : Z) (cell_m : Q) (rooms : list room)
    : except pack_state :=
  pack_from build_w build_h cell_m init_state rooms.

(** ** Coverage *)

(** [sum(w*h*cell_m*cell_m for (_, _, w, h) in layout.values())] *)
Definition built_area (lay : gmap string rect) (cell_m : Q) : Q :=
  map_fold (λ _ (v : rect) acc,
              let '(_, _, w, h) := v in
              (acc + inject_Z (w * h) * cell_m * cell_m)%Q) 0%Q lay.

(** [coverage = built_area / total_area * 100] *)
Definition coverage_pct (lay : gmap string rect) (cell_m plot_w plot_d : Q)
    : except Q :=
  let total_area := (plot_w * plot_d)%Q in
  c ← fdiv (built_area lay cell_m) total_area;
  Ok (c * 100)%Q.

(** ** The site grid *)

(** The six [to_grid] calls at the head of the main logic and the two
    subtractions: [(build_w, build_h, cell_m)]. *)
Definition site_grid (i : inputs) : except (Z * Z * Q) :=
  '(grid_w, cell_m) ← to_grid (PLOT_WIDTH i) (grid_snap_cm i);
  '(grid_h, _) ← to_grid (PLOT_DEPTH i) (grid_snap_cm i);
  '(left_c, _) ← to_grid (left_setback i) (grid_snap_cm i);
  '(right_c, _) ← to_grid (right_setback i) (grid_snap_cm i);
  '(front_c, _) ← to_grid (front_setback i) (grid_snap_cm i);
  '(rear_c, _) ← to_grid (rear_setback i) (grid_snap_cm i);
  let build_w := grid_w - left_c - right_c in
  let build_h := grid_h - front_c - rear_c in
  Ok (build_w, build_h, cell_m).

(** ** Room preparation and the whole run *)

(** What a run that reaches the coverage line hands to the renderer. *)
Record result : Type := {
  res_layout : gmap string rect;
  res_overflow : list string;
  res_coverage : Q;
  res_cell_m : Q
}.

(** [NoBuildableSpace] is [st.error("Setbacks too large ..."); st.stop()]. *)
Inductive outcome : Type :=
  | NoBuildableSpace
  | Generated (r : result).

Definition default_aspect_ratio : Q := 13 # 10.

Section Engine.

(** The float square root computed by [x ** 0.5] for [x >= 0]. *)
Variable fsqrt : Q → Q.

Definition pow_half (x : Q) : pynum :=
  if Qle_bool 0 x then Float (fsqrt x) else Complex.

(** [def area_to_dims(area, aspect_ratio=1.3)].  With a complex [w] the
    quotient [area / w] is complex too. *)
Definition area_to_dims (area aspect_ratio : Q) : except (pynum * pynum) :=
  match pow_half (area * aspect_ratio) with
  | Float w => h ← fdiv area w; Ok (Float w, Float h)
  | Complex => Ok (Complex, Complex)
  end.

(** [for i in range(1, bedrooms_count + 1)], on the list of indices. *)
Fixpoint add_bedrooms (bedroom_area : Q) (indices : list Z)
    (rooms : list raw_room) : except (list raw_room) :=
  match indices with
  | [] => Ok rooms
  | i :: indices' =>
      '(bw, bh) ← area_to_dims bedroom_area default_aspect_ratio;
      add_bedrooms bedroom_area indices'
        (rooms ++ [("Bedroom " +:+ pretty i, bw, bh)])
  end.

Definition prepare_rooms (i : inputs) : except (list raw_room) :=
  let rooms := [("Car Porch", Float (car_w i), Float (car_d i))] in
  '(lw, lh) ← area_to_dims (lounge_area i) default_aspect_ratio;
  let rooms := rooms ++ [("Lounge", lw, lh)] in
  rooms ← add_bedrooms (bedroom_area i) (seqZ 1 (bedrooms_count i)) rooms;
  '(bw, bh) ← area_to_dims (bath_area i) default_aspect_ratio;
  Ok (rooms ++ [("Bath", bw, bh)]).

(** A complex dimension ends the run with [TypeError] before any room is
    placed: in the key comparison of [rooms.sort] when the list has two
    entries or more (it always has here), in [round] otherwise. *)
Definition float_room (r : raw_room) : except room :=
  let '(name, w, h) := r in
  w_m ← as_float w;
  h_m ← as_float h;
  Ok (name, w_m, h_m).

Fixpoint float_rooms (rooms : list raw_room) : except (list room) :=
  match rooms with
  | [] => Ok []
  | r :: rooms' =>
      r' ← float_room r;
      rs ← float_rooms rooms';
      Ok (r' :: rs)
  end.

Definition rooms_sort (rooms : list raw_room) : except (list room) :=
  rs ← float_rooms rooms;
  Ok (sort_desc area_key rs).

(** The body of [if generate_btn:], up to the coverage figure. *)
Definition generate (i : inputs) : except outcome :=
  '(build_w, build_h, cell_m) ← site_grid i;
  if (build_w <=? 0) || (build_h <=? 0) then Ok NoBuildableSpace
  else
    rooms ← prepare_rooms i;
    rooms ← rooms_sort rooms;
    s ← pack build_w build_h cell_m rooms;
    coverage ← coverage_pct (layout s) cell_m (PLOT_WIDTH i) (PLOT_DEPTH i);
    Ok (Generated {| res_layout := layout s;
                     res_overflow := warnings s;
                     res_coverage := coverage;
                     res_cell_m := cell_m |}).

End Engine.

(** A square root to six decimals, to run the engine on concrete inputs. *)
Definition sqrt6 (x : Q) : Q :=
  Z.sqrt (Qnum x * 1000000000000 / Zpos (Qden x)) # 1000000.

(** ** The rendered boxes *)

(** [def cuboid_coords(x, y, dx, dy, dz)]: the eight corners of the box and
    the twelve triangles of the mesh, by corner index. *)
Definition cuboid_coords (x y dx dy dz : Q)
    : list Q * list Q * list Q * list nat * list nat * list nat :=
  let X := [x; x + dx; x + dx; x; x; x + dx; x + dx; x]%Q in
  let Y := [y; y; y + dy; y + dy; y; y; y + dy; y + dy]%Q in
  let Z := [0; 0; 0; 0; dz; dz; dz; dz]%Q in
  let I := [0; 0; 0; 4; 4; 7; 1; 1; 2; 3; 5; 6]%nat in
  let J := [1; 2; 3; 5; 6; 4; 5; 2; 6; 7; 6; 7]%nat in
  let K := [2; 3; 1; 6; 7; 5; 2; 3; 7; 4; 7; 5]%nat in
  (X, Y, Z, I, J, K).

(** [cmap]: the three fixed colours, then one entry per bedroom index. *)
Definition base_cmap : gmap string string :=
  <["Bath" := "#9b2226"]>
    (<["Lounge" := "#ffb703"]> (<["Car Porch" := "#8ecae6"]> ∅)).

Definition cmap (bedrooms_count : Z) : gmap string string :=
  foldl (λ m i, <["Bedroom " +:+ pretty i := "#bde0fe"]> m)
        base_cmap (seqZ 1 bedrooms_count).

(** [cmap.get(name, "#cccccc")] *)
Definition trace_color (cm : gmap string string) (name : string) : string :=
  default "#cccccc" (cm !! name).

Definition room_height : Q := 3.

(** What one iteration of [for name, (x, y, w, h) in layout.items()] hands
    to [go.Mesh3d] and [go.Scatter3d]: the mesh, its colour, and the
    position of the text label. *)
Record room_trace : Type := {
  trace_mesh : list Q * list Q * list Q * list nat * list nat * list nat;
  trace_colour : string;
  trace_label : Q * Q * Q
}.

Definition render_room (cm : gmap string string) (cell_m : Q)
    (name : string) (v : rect) : room_trace :=
  let '(x, y, w, h) := v in
  let ox := (inject_Z x * cell_m)%Q in
  let oy := (inject_Z y * cell_m)%Q in
  let dx := (inject_Z w * cell_m)%Q in
  let dy := (inject_Z h * cell_m)%Q in
  let dz := room_height in
  {| trace_mesh := cuboid_coords ox oy dx dy dz;
     trace_colour := trace_color cm name;
     trace_label := (ox + dx / 2, oy + dy / 2, dz + (1 # 10))%Q |}.

(** * The properties, stated *)

(** ** Rectangles *)

(** Two cell rectangles are disjoint when their open x-intervals or their
    open y-intervals do not meet. *)
Definition disjoint_rect (a b : rect) : Prop :=
  let '(x1, y1, w1, h1) := a in
  let '(x2, y2, w2, h2) := b in
  x1 + w1 ≤ x2 ∨ x2 + w2 ≤ x1 ∨ y1 + h1 ≤ y2 ∨ y2 + h2 ≤ y1.

Definition no_overlap (lay : gmap string rect) : Prop :=
  ∀ n1 n2 r1 r2, n1 ≠ n2 →
    lay !! n1 = Some r1 → lay !! n2 = Some r2 → disjoint_rect r1 r2.

(** A rectangle lies within the buildable grid. *)
Definition within (build_w build_h : Z) (r : rect) : Prop :=
  let '(x, y, w, h) := r in
  0 ≤ x ∧ 0 ≤ y ∧ x + w ≤ build_w ∧ y + h ≤ build_h.

Definition contained (build_w build_h : Z) (lay : gmap string rect) : Prop :=
  ∀ n r, lay !! n = Some r → within build_w build_h r.

(** ** The invariant of the loop *)

(** Where a placed rectangle sits relative to the cursor: on a finished
    shelf, above the current one, or on the current shelf to the left of
    the cursor and no taller than the shelf. *)
Definition shelved (build_h : Z) (s : pack_state) (r : rect) : Prop :=
  let '(x, y, w, h) := r in
  1 ≤ w ∧ 1 ≤ h ∧ 0 ≤ x ∧ 0 ≤ y ∧ y + h ≤ build_h ∧
  (y + h ≤ cursor_y s ∨
   (y = cursor_y s ∧ x + w ≤ cursor_x s ∧ h ≤ max_row_height s)).

Record shelf_inv (build_h : Z) (s : pack_state) : Prop := {
  inv_x : 0 ≤ cursor_x s;
  inv_y : 0 ≤ cursor_y s;
  inv_row : 0 ≤ max_row_height s;
  inv_shelved : ∀ n r, layout s !! n = Some r → shelved build_h s r;
  inv_disjoint : no_overlap (layout s)
}.

(** A room whose width in cells does not exceed the buildable width. *)
Definition fits_row (build_w : Z) (cell_m : Q) (r : room) : Prop :=
  ∀ w, cells (r.1.2) cell_m = Ok w → w ≤ build_w.

Definition right_edge_ok (build_w : Z) (s : pack_state) : Prop :=
  ∀ n x y w h, layout s !! n = Some (x, y, w, h) → x + w ≤ build_w.

(** The key of a room in the [layout] dict. *)
Definition room_name (r : room) : string := r.1.1.

(** The cursor state of the loop. *)
Definition cursor (s : pack_state) : Z * Z * Z :=
  (cursor_x s, cursor_y s, max_row_height s).

(** ** Orders *)

Section Order.
Context {A : Type} (key : A → Q).

(** [a] may stand before [b] in a descending order. *)
Definition key_ge (a b : A) : Prop := (key b <= key a)%Q.

(** The entries of one key value, in list order. *)
Definition with_key (k : Q) (l : list A) : list A :=
  List.filter (λ a, Qeq_bool (key a) k) l.

End Order.




(** ** Measurements *)


(** ** Concrete inputs *)

(** The defaults of the form. *)
Definition default_inputs : inputs :=
  {| PLOT_WIDTH := 14; PLOT_DEPTH := 24;
     front_setback := 45 # 10; rear_setback := 3;
     left_setback := 2; right_setback := 2;
     grid_snap_cm := 50;
     car_w := 32 # 10; car_d := 55 # 10;
     bedroom_area := 12; bedrooms_count := 3;
     bath_area := 4; lounge_area := 20 |}.

Definition with_setbacks (front rear left right : Q) (i : inputs) : inputs :=
  {| PLOT_WIDTH := PLOT_WIDTH i; PLOT_DEPTH := PLOT_DEPTH i;
     front_setback := front; rear_setback := rear;
     left_setback := left; right_setback := right;
     grid_snap_cm := grid_snap_cm i;
     car_w := car_w i; car_d := car_d i;
     bedroom_area := bedroom_area i; bedrooms_count := bedrooms_count i;
     bath_area := bath_area i; lounge_area := lounge_area i |}.


Definition with_areas (lounge bedroom bath : Q) (i : inputs) : inputs :=
  {| PLOT_WIDTH := PLOT_WIDTH i; PLOT_DEPTH := PLOT_DEPTH i;
     front_setback := front_setback i; rear_setback := rear_setback i;
     left_setback := left_setback i; right_setback := right_setback i;
     grid_snap_cm := grid_snap_cm i;
     car_w := car_w i; car_d := car_d i;
     bedroom_area := bedroom; bedrooms_count := bedrooms_count i;
     bath_area := bath; lounge_area := lounge |}.

(** The defaults with a car porch 12 m wide: 24 cells, against a buildable
    width of 20. *)
Definition wide_porch_inputs : inputs :=
  {| PLOT_WIDTH := 14; PLOT_DEPTH := 24;
     front_setback := 45 # 10; rear_setback := 3;
     left_setback := 2; right_setback := 2;
     grid_snap_cm := 50;
     car_w := 12; car_d := 55 # 10;
     bedroom_area := 12; bedrooms_count := 3;
     bath_area := 4; lounge_area := 20 |}.

(** Side setbacks of 7 m on a plot 14 m wide, and a bathroom of area 0,
    on which [area_to_dims] divides by zero. *)
Definition no_space_inputs : inputs :=
  {| PLOT_WIDTH := 14; PLOT_DEPTH := 24;
     front_setback := 45 # 10; rear_setback := 3;
     left_setback := 7; right_setback := 7;
     grid_snap_cm := 50;
     car_w := 32 # 10; car_d := 55 # 10;
     bedroom_area := 12; bedrooms_count := 3;
     bath_area := 0; lounge_area := 20 |}.


(** The defaults with no setback on the left and at the front. *)
Definition zero_setback_inputs : inputs :=
  with_setbacks 0 3 0 2 default_inputs.


(** Two rooms of 6 m x 10 m (12 x 20 cells on a half-metre grid). *)
Definition two_halls : list room := [("Hall 1", 6, 10); ("Hall 2", 6, 10)]%Q.

(** The car porch and a tower of 2 m x 20 m. *)
Definition porch_and_tower : list room :=
  [("Car Porch", 32 # 10, 55 # 10); ("Tower", 2, 20)]%Q.

(** A lounge, the car porch and two bedrooms, given by their sides. *)
Definition four_rooms : list room :=
  [("Lounge", 5, 4); ("Car Porch", 32 # 10, 55 # 10);
   ("Bedroom 1", 4, 3); ("Bedroom 2", 4, 3)]%Q.

(** ** Cell counts *)



(** What the bedroom loop appends. *)
Definition bedroom_entries (bed : pynum * pynum) (indices : list Z)
    : list raw_room :=
  (λ i, ("Bedroom " +:+ pretty i, bed.1, bed.2)) <$> indices.

(** An area that [area_to_dims] takes without dividing by zero: it is not
    zero, and if it is positive the root taken of it is not zero. *)
Definition area_ok (fsqrt : Q → Q) (area : Q) : Prop :=
  ¬ (area == 0)%Q ∧
  ((0 < area)%Q → ¬ (fsqrt (area * default_aspect_ratio) == 0)%Q).

(** [f"Bedroom {i}"] *)
Definition bedroom_name (i : Z) : string := "Bedroom " +:+ pretty i.

(** The names a run prepares rooms for. *)
Definition prepared_names (bedrooms_count : Z) : list string :=
  ["Car Porch"; "Lounge"]
    ++ ((λ i, "Bedroom " +:+ pretty i) <$> seqZ 1 bedrooms_count)
    ++ ["Bath"].

(** ** The mesh *)

Abbreviation mesh := (list Q * list Q * list Q * list nat * list nat * list nat)%type.

Definition mesh_X (m : mesh) : list Q := m.1.1.1.1.1.
Definition mesh_Y (m : mesh) : list Q := m.1.1.1.1.2.
Definition mesh_Z (m : mesh) : list Q := m.1.1.1.2.
Definition mesh_I (m : mesh) : list nat := m.1.1.2.
Definition mesh_J (m : mesh) : list nat := m.1.2.
Definition mesh_K (m : mesh) : list nat := m.2.

(** Corner [n] of a mesh. *)
Definition corner (m : mesh) (n : nat) : option (Q * Q * Q) :=
  x ← mesh_X m !! n; y ← mesh_Y m !! n; z ← mesh_Z m !! n; Some (x, y, z).

Fixpoint zip3 (li lj lk : list nat) : list (nat * nat * nat) :=
  match li, lj, lk with
  | i :: li', j :: lj', k :: lk' => (i, j, k) :: zip3 li' lj' lk'
  | _, _, _ => []
  end.

(** The triangles of a mesh as index triples. *)
Definition triangles (m : mesh) : list (nat * nat * nat) :=
  zip3 (mesh_I m) (mesh_J m) (mesh_K m).

(** The three corners of a triangle, when its indices are in range. *)
Definition triangle_corners (m : mesh) (t : nat * nat * nat)
    : option ((Q * Q * Q) * (Q * Q * Q) * (Q * Q * Q)) :=
  let '(a, b, c) := t in
  pa ← corner m a; pb ← corner m b; pc ← corner m c;
  Some (pa, pb, pc).

(** * The properties, proved *)

(** ** Rounding *)

#[global] Instance py_round_proper : Proper (Qeq ==> eq) py_round.
Proof.
  intros q q' E. unfold py_round.
  rewrite (Qfloor_comp _ _ E).
  assert (2 * (q - inject_Z (Qfloor q')) == 2 * (q' - inject_Z (Qfloor q')))%Q
    as E' by (rewrite E; reflexivity).
  rewrite (Qcompare_comp _ _ E' 1%Q 1%Q (Qeq_refl 1%Q)). reflexivity.
Qed.

Lemma Qfloor_half (k : Z) : Qfloor (inject_Z k + (1 # 2)) = k.
Proof.
  unfold Qfloor, Qplus, inject_Z. simpl.
  rewrite Z.mul_1_r. replace (k * 2 + 1) with (1 + k * 2) by lia.
  rewrite Z.div_add by lia. reflexivity.
Qed.

Lemma py_round_half (k : Z) :
  py_round (inject_Z k + (1 # 2)) = if Z.even k then k else k + 1.
Proof.
  unfold py_round. rewrite Qfloor_half.
  assert (2 * (inject_Z k + (1 # 2) - inject_Z k) == 1)%Q as E by ring.
  apply Qeq_alt in E. rewrite E. reflexivity.
Qed.

(** [py_round] is a nearest integer. *)
Lemma py_round_nearest (q : Q) :
  (inject_Z (py_round q) - (1 # 2) <= q)%Q ∧
  (q <= inject_Z (py_round q) + (1 # 2))%Q.
Proof.
  pose proof (Qfloor_le q) as Hlo. pose proof (Qlt_floor q) as Hhi.
  rewrite inject_Z_plus in Hhi. change (inject_Z 1) with 1%Q in Hhi.
  unfold py_round.
  destruct (2 * (q - inject_Z (Qfloor q)) ?= 1)%Q eqn:C.
  - apply Qeq_alt in C.
    destruct (Z.even (Qfloor q)); rewrite ?inject_Z_plus;
      change (inject_Z 1) with 1%Q; split; lra.
  - apply Qlt_alt in C. split; lra.
  - apply Qgt_alt in C. rewrite inject_Z_plus.
    change (inject_Z 1) with 1%Q. split; lra.
Qed.

Lemma py_round_nonpos (q : Q) : (q <= 0)%Q → py_round q ≤ 0.
Proof.
  intros H. unfold py_round.
  assert (Qfloor q ≤ 0) as Hf.
  { change 0 with (Qfloor 0). by apply Qfloor_resp_le. }
  destruct (Z.eq_dec (Qfloor q) 0) as [E0|NE].
  - rewrite E0. simpl.
    destruct (2 * (q - inject_Z 0) ?= 1)%Q eqn:C; try lia.
    apply Qgt_alt in C.
    assert (2 * (q - inject_Z 0) == 2 * q)%Q as E by (unfold inject_Z; ring).
    rewrite E in C.
    lra.
  - destruct (2 * (q - inject_Z (Qfloor q)) ?= 1)%Q; try destruct (Z.even _); lia.
Qed.

(** ** Division and the cell size *)

Lemma fdiv_ok (a b : Q) : ¬ (b == 0)%Q → fdiv a b = Ok (a / b)%Q.
Proof.
  intros H. unfold fdiv. destruct (Qeq_bool b 0) eqn:E; [|done].
  by apply Qeq_bool_iff in E.
Qed.

Lemma fdiv_zero (a b : Q) : (b == 0)%Q → fdiv a b = Raise ZeroDivisionError.
Proof. intros H. unfold fdiv. apply Qeq_bool_iff in H. by rewrite H. Qed.

Lemma fdiv_inv (a b r : Q) : fdiv a b = Ok r → ¬ (b == 0)%Q ∧ r = (a / b)%Q.
Proof.
  unfold fdiv. destruct (Qeq_bool b 0) eqn:E; [done|].
  intros [= <-]. split; [|done]. intros H. apply Qeq_bool_iff in H. congruence.
Qed.

Lemma cell_size_zero (snap_cm : Z) :
  (inject_Z snap_cm / 100 == 0)%Q ↔ snap_cm = 0.
Proof.
  unfold Qeq, Qdiv, Qmult, Qinv, inject_Z. simpl. lia.
Qed.

Lemma cell_size_pos (snap_cm : Z) :
  0 < snap_cm → (0 < inject_Z snap_cm / 100)%Q.
Proof. unfold Qlt, Qdiv, Qmult, Qinv, inject_Z. simpl. lia. Qed.


Lemma to_grid_ok (meters : Q) (snap_cm : Z) :
  snap_cm ≠ 0 →
  to_grid meters snap_cm =
    Ok (Z.max 1 (py_round (meters / (inject_Z snap_cm / 100))),
        (inject_Z snap_cm / 100)%Q).
Proof.
  intros H. unfold to_grid. rewrite fdiv_ok; [done|].
  by rewrite cell_size_zero.
Qed.

Lemma to_grid_zero_snap (meters : Q) :
  to_grid meters 0 = Raise ZeroDivisionError.
Proof. reflexivity. Qed.


Lemma cells_ok (m cell_m : Q) :
  ¬ (cell_m == 0)%Q → cells m cell_m = Ok (Z.max 1 (py_round (m / cell_m))).
Proof. intros H. unfold cells. by rewrite fdiv_ok. Qed.

Lemma cells_inv (m cell_m : Q) (n : Z) :
  cells m cell_m = Ok n →
  ¬ (cell_m == 0)%Q ∧ n = Z.max 1 (py_round (m / cell_m)) ∧ 1 ≤ n.
Proof.
  unfold cells. destruct (fdiv m cell_m) as [r|e] eqn:E; [|done].
  apply fdiv_inv in E as [H ->]. intros [= <-]. repeat split; [done|lia].
Qed.


(** C9.  [to_grid] maps a zero measurement to one cell for every positive
    grid snap, so in [site_grid] a setback of 0 m is subtracted from the
    buildable dimension as one full cell. *)
Theorem to_grid_zero_is_one_cell (i : inputs) :
  0 < grid_snap_cm i →
  to_grid 0 (grid_snap_cm i) = Ok (1, (inject_Z (grid_snap_cm i) / 100)%Q) ∧
  ∃ grid_w grid_h left_c right_c front_c rear_c cell_m,
    to_grid (PLOT_WIDTH i) (grid_snap_cm i) = Ok (grid_w, cell_m) ∧
    to_grid (PLOT_DEPTH i) (grid_snap_cm i) = Ok (grid_h, cell_m) ∧
    to_grid (left_setback i) (grid_snap_cm i) = Ok (left_c, cell_m) ∧
    to_grid (right_setback i) (grid_snap_cm i) = Ok (right_c, cell_m) ∧
    to_grid (front_setback i) (grid_snap_cm i) = Ok (front_c, cell_m) ∧
    to_grid (rear_setback i) (grid_snap_cm i) = Ok (rear_c, cell_m) ∧
    site_grid i =
      Ok (grid_w - left_c - right_c, grid_h - front_c - rear_c, cell_m) ∧
    ((left_setback i == 0)%Q → left_c = 1) ∧
    ((right_setback i == 0)%Q → right_c = 1) ∧
    ((front_setback i == 0)%Q → front_c = 1) ∧
    ((rear_setback i == 0)%Q → rear_c = 1).
Proof.
  intros Hs. assert (grid_snap_cm i ≠ 0) as Hn by lia.
  split; [by rewrite to_grid_ok|].
  do 7 eexists. unfold site_grid. rewrite !to_grid_ok by done.
  repeat split; try reflexivity.
  all: intros ->; reflexivity.
Qed.

Lemma to_grid_zero_is_one_cell_witness :
  to_grid 0 50 = Ok (1, (inject_Z 50 / 100)%Q) ∧
  ∃ cell_m, site_grid zero_setback_inputs = Ok (28 - 1 - 4, 48 - 1 - 6, cell_m).
Proof.
  destruct (to_grid_zero_is_one_cell zero_setback_inputs)
    as (H0 & gw & gh & lc & rc & fc & rr & cell_m
        & Hgw & Hgh & Hlc & Hrc & Hfc & Hrr & Hg & Hl & _ & Hf & _);
    [simpl; lia|].
  split; [exact H0|]. exists cell_m.
  rewrite Hg. rewrite (Hl (Qeq_refl 0)), (Hf (Qeq_refl 0)).
  injection Hgw as <- _. injection Hgh as <- _.
  injection Hrc as <- _. injection Hrr as <- _. reflexivity.
Defined.

(** ** Ties, on binary64 floats *)

Set Warnings "-inexact-float".

(** C10.  When the float quotient of a measurement by the cell size is an
    integer plus exactly one half, [to_grid] (and the per-room conversion of
    the loop, [cells_float]) returns the even one of the two neighbouring
    integers, floored at 1.  The quotient is the rounded binary64 quotient,
    as the code computes it, not the exact ratio of the two numbers. *)
Theorem to_grid_half_to_even (meters : float) (snap_cm k : Z)
    (cell r : float) (q : Q) :
  snap_cell snap_cm = Ok cell →
  float_div meters cell = Ok r →
  float_value r = Some q →
  (q == inject_Z k + (1 # 2))%Q →
  to_grid_float meters snap_cm =
    Ok (Z.max 1 (if Z.even k then k else k + 1), cell) ∧
  cells_float meters cell = Ok (Z.max 1 (if Z.even k then k else k + 1)).
Proof.
  intros Hcell Hdiv Hval Hq.
  assert (float_round r = Ok (if Z.even k then k else k + 1)) as Hround.
  { unfold float_round. rewrite Hval. by rewrite Hq, py_round_half. }
  assert (cells_float meters cell = Ok (Z.max 1 (if Z.even k then k else k + 1)))
    as Hcells.
  { unfold cells_float. rewrite Hdiv. simpl. by rewrite Hround. }
  split; [|done]. unfold to_grid_float. rewrite Hcell. simpl. by rewrite Hcells.
Qed.

(** Quotients 2.5, 3.5 and 0.5 on a half-metre grid: 2, 4 and (0, floored)
    1 cells. *)
Lemma to_grid_half_to_even_witness :
  to_grid_float 1.25 50 = Ok (2, 0.5%float) ∧
  to_grid_float 1.75 50 = Ok (4, 0.5%float) ∧
  to_grid_float 0.25 50 = Ok (1, 0.5%float).
Proof.
  split; [|split].
  - eapply (to_grid_half_to_even 1.25 50 2 0.5 2.5);
      reflexivity.
  - eapply (to_grid_half_to_even 1.75 50 3 0.5 3.5);
      reflexivity.
  - eapply (to_grid_half_to_even 0.25 50 0 0.5 0.5);
      reflexivity.
Defined.

(** Where the exact ratio of the decimal inputs is a tie but the float
    quotient is not, there is no tie to break: 0.35 m on a 10 cm grid has
    the quotient 3.4999999999999996 and gets 3 cells, 10.5 m on a 28 cm
    grid has 37.499999999999993 and gets 37, and 0.75 m on a 30 cm grid has
    exactly 2.5 and gets 2. *)
Lemma to_grid_float_near_ties :
  to_grid_float 0.35 10 = Ok (3, 0.1%float) ∧
  to_grid_float 10.5 28 = Ok (37, 0.28%float) ∧
  to_grid_float 0.75 30 = Ok (2, 0.3%float).
Proof. repeat split; reflexivity. Qed.


(** ** Invariants of the placement loop *)

Section Packing.
Variables (build_w build_h : Z) (cell_m : Q).

Lemma init_inv : shelf_inv build_h init_state.
Proof.
  split; simpl; try lia.
  - intros n r H. by rewrite lookup_empty in H.
  - intros n1 n2 r1 r2 _ H. by rewrite lookup_empty in H.
Qed.

Lemma wrap_layout w s : layout (wrap build_w w s) = layout s.
Proof. unfold wrap. by destruct (_ >? _). Qed.

Lemma wrap_warnings w s : warnings (wrap build_w w s) = warnings s.
Proof. unfold wrap. by destruct (_ >? _). Qed.

(** Starting a new shelf turns the current shelf into a finished one. *)
Lemma wrap_inv w s : shelf_inv build_h s → shelf_inv build_h (wrap build_w w s).
Proof.
  intros I. unfold wrap. destruct (_ >? _); [|done].
  destruct I as [Hx Hy Hr Hs Hd]. split; simpl; try lia; [|done].
  intros n [[[x y] w'] h] Hn. specialize (Hs n _ Hn).
  unfold shelved in *. simpl. lia.
Qed.

(** A new rectangle goes to the cursor: below every finished shelf and to
    the right of everything on the current one. *)
Lemma settle_inv name w h s :
  1 ≤ w → 1 ≤ h →
  shelf_inv build_h s → shelf_inv build_h (settle build_h name w h s).
Proof.
  intros Hw Hh [Hx Hy Hr Hs Hd]. unfold settle.
  destruct (cursor_y s + h >? build_h) eqn:C; [by split|].
  rewrite Z.gtb_ltb, Z.ltb_ge in C.
  split; simpl; try lia.
  - intros n [[[x y] w'] h'] Hn.
    apply lookup_insert_Some in Hn as [[_ [= <- <- <- <-]]|[_ Hn]].
    + unfold shelved. simpl. lia.
    + specialize (Hs n _ Hn). unfold shelved in *. simpl. lia.
  - intros n1 n2 [[[x1 y1] w1] h1] [[[x2 y2] w2] h2] Hne H1 H2.
    apply lookup_insert_Some in H1 as [[E1 [= <- <- <- <-]]|[N1 H1]];
      apply lookup_insert_Some in H2 as [[E2 [= <- <- <- <-]]|[N2 H2]].
    + congruence.
    + specialize (Hs n2 _ H2). unfold shelved in Hs. simpl. lia.
    + specialize (Hs n1 _ H1). unfold shelved in Hs. simpl. lia.
    + exact (Hd n1 n2 _ _ Hne H1 H2).
Qed.

Lemma place_inv s r s' :
  place build_w build_h cell_m s r = Ok s' →
  shelf_inv build_h s → shelf_inv build_h s'.
Proof.
  destruct r as [[name w_m] h_m]. unfold place.
  destruct (cells w_m cell_m) as [w|] eqn:Ew; [|done].
  destruct (cells h_m cell_m) as [h|] eqn:Eh; [|done].
  intros [= <-] I.
  apply cells_inv in Ew as (_ & _ & Hw). apply cells_inv in Eh as (_ & _ & Hh).
  by apply settle_inv, wrap_inv.
Qed.

Lemma pack_from_inv rooms s s' :
  pack_from build_w build_h cell_m s rooms = Ok s' →
  shelf_inv build_h s → shelf_inv build_h s'.
Proof.
  revert s. induction rooms as [|r rooms IH]; intros s; simpl.
  - by intros [= <-].
  - destruct (place build_w build_h cell_m s r) as [s1|] eqn:E; [|done].
    intros H I. exact (IH _ H (place_inv _ _ _ E I)).
Qed.

Lemma pack_inv rooms s :
  pack build_w build_h cell_m rooms = Ok s → shelf_inv build_h s.
Proof. intros H. exact (pack_from_inv _ _ _ H init_inv). Qed.

(** The loop runs to its end whenever the cell size is not zero. *)
Lemma place_total s r :
  ¬ (cell_m == 0)%Q → ∃ s', place build_w build_h cell_m s r = Ok s'.
Proof.
  intros H. destruct r as [[name w_m] h_m]. unfold place.
  rewrite !cells_ok by done. by eexists.
Qed.

Lemma pack_from_total rooms s :
  ¬ (cell_m == 0)%Q → ∃ s', pack_from build_w build_h cell_m s rooms = Ok s'.
Proof.
  intros H. revert s. induction rooms as [|r rooms IH]; intros s; simpl.
  - by eexists.
  - destruct (place_total s r H) as [s1 ->]. apply IH.
Qed.

Lemma pack_total rooms :
  ¬ (cell_m == 0)%Q → ∃ s, pack build_w build_h cell_m rooms = Ok s.
Proof. apply pack_from_total. Qed.

(** *** The right edge *)

Lemma place_right_edge s r s' :
  fits_row build_w cell_m r →
  place build_w build_h cell_m s r = Ok s' →
  right_edge_ok build_w s → right_edge_ok build_w s'.
Proof.
  destruct r as [[name w_m] h_m]. unfold fits_row, place. simpl.
  intros Hfit.
  destruct (cells w_m cell_m) as [w|] eqn:Ew; [|done].
  destruct (cells h_m cell_m) as [h|] eqn:Eh; [|done].
  specialize (Hfit w eq_refl).
  intros [= <-] I n x y w' h'. unfold settle.
  destruct (_ >? build_h); simpl; rewrite wrap_layout; [apply I|].
  intros Hn. apply lookup_insert_Some in Hn as [[_ [= <- <- <- <-]]|[_ Hn]];
    [|by eapply I].
  unfold wrap. destruct (cursor_x s + w >? build_w) eqn:C; simpl; [lia|].
  rewrite Z.gtb_ltb, Z.ltb_ge in C. lia.
Qed.

Lemma pack_from_right_edge rooms s s' :
  Forall (fits_row build_w cell_m) rooms →
  pack_from build_w build_h cell_m s rooms = Ok s' →
  right_edge_ok build_w s → right_edge_ok build_w s'.
Proof.
  intros Hall. revert s. induction Hall as [|r rooms Hr _ IH]; intros s; simpl.
  - by intros [= <-].
  - destruct (place build_w build_h cell_m s r) as [s1|] eqn:E; [|done].
    intros H I. exact (IH _ H (place_right_edge _ _ _ Hr E I)).
Qed.

(** Every placed rectangle is within the grid on the upper, lower and left
    side ... *)
Lemma pack_contained_but_right (rooms : list room) :
  ¬ (cell_m == 0)%Q →
  ∃ s, pack build_w build_h cell_m rooms = Ok s ∧
       ∀ n x y w h, layout s !! n = Some (x, y, w, h) →
         1 ≤ w ∧ 1 ≤ h ∧ 0 ≤ x ∧ 0 ≤ y ∧ y + h ≤ build_h.
Proof.
  intros H. destruct (pack_total rooms H) as [s Hs].
  exists s. split; [done|]. intros n x y w h Hn.
  pose proof (inv_shelved _ _ (pack_inv _ _ Hs) n _ Hn) as Hsh.
  unfold shelved in Hsh. lia.
Qed.

(** ... and on the right side too when no room is wider than the grid. *)
Lemma pack_contained_when_rooms_fit (rooms : list room) :
  ¬ (cell_m == 0)%Q →
  Forall (fits_row build_w cell_m) rooms →
  ∃ s, pack build_w build_h cell_m rooms = Ok s ∧
       contained build_w build_h (layout s).
Proof.
  intros H Hall. destruct (pack_total rooms H) as [s Hs].
  exists s. split; [done|]. intros n [[[x y] w] h] Hn.
  pose proof (inv_shelved _ _ (pack_inv _ _ Hs) n _ Hn) as Hsh.
  assert (right_edge_ok build_w s) as Hre.
  { eapply pack_from_right_edge; [exact Hall | exact Hs |].
    intros ? ? ? ? ? Hl. simpl in Hl. by rewrite lookup_empty in Hl. }
  specialize (Hre n x y w h Hn). unfold shelved in Hsh. unfold within. lia.
Qed.

(** *** Placed or warned about *)

Lemma place_overflow_count s r s' :
  place build_w build_h cell_m s r = Ok s' →
  (length (warnings s') = S (length (warnings s)) ∧ layout s' = layout s) ∨
  length (warnings s') = length (warnings s).
Proof.
  destruct r as [[name w_m] h_m]. unfold place.
  destruct (cells w_m cell_m) as [w|]; [|done].
  destruct (cells h_m cell_m) as [h|]; [|done].
  intros [= <-]. unfold settle.
  destruct (_ >? build_h); simpl; rewrite wrap_warnings.
  - left. rewrite length_app, wrap_layout. simpl. split; [lia|done].
  - by right.
Qed.

Lemma pack_from_overflow_count rooms s s' :
  pack_from build_w build_h cell_m s rooms = Ok s' →
  (length (warnings s') ≤ length (warnings s) + length rooms)%nat ∧
  (length (warnings s') = (length (warnings s) + length rooms)%nat →
   layout s' = layout s).
Proof.
  revert s. induction rooms as [|r rooms IH]; intros s; simpl.
  - intros [= <-]. split; [lia|done].
  - destruct (place build_w build_h cell_m s r) as [s1|] eqn:E; [|done].
    intros H. destruct (IH _ H) as [Hle Heq].
    destruct (place_overflow_count _ _ _ E) as [[Hl1 Hlay]|Hl1].
    + split; [lia|]. intros Hlen. rewrite <- Hlay. apply Heq. lia.
    + split; [lia|]. intros Hlen. lia.
Qed.

End Packing.

(** C2.  The loop runs to its end for every room list (the cell size is
    not zero once [to_grid] has returned), and any two rooms of the final
    layout with distinct names have disjoint cell rectangles. *)
Theorem pack_no_overlap (build_w build_h : Z) (cell_m : Q) (rooms : list room) :
  ¬ (cell_m == 0)%Q →
  ∃ s, pack build_w build_h cell_m rooms = Ok s ∧
    ∀ n1 n2 r1 r2, n1 ≠ n2 →
      layout s !! n1 = Some r1 → layout s !! n2 = Some r2 →
      disjoint_rect r1 r2.
Proof.
  intros H. destruct (pack_total build_w build_h cell_m rooms H) as [s Hs].
  exists s. split; [done|].
  apply (inv_disjoint build_h s). by eapply pack_inv.
Qed.

Lemma pack_no_overlap_witness :
  ∃ s, pack 20 33 (1 # 2) four_rooms = Ok s ∧
       ∀ r1 r2, layout s !! "Car Porch" = Some r1 →
                layout s !! "Bedroom 2" = Some r2 → disjoint_rect r1 r2.
Proof.
  destruct (pack_no_overlap 20 33 (1 # 2) four_rooms) as (s & Hs & Hd);
    [discriminate|].
  exists s. split; [exact Hs|].
  intros r1 r2. apply Hd. discriminate.
Defined.

(** C1.  The loop only starts a new shelf when a room does not fit the
    current one; it never checks the room against the empty shelf.  A room
    wider than the buildable grid is placed at [x = 0] and sticks out on the
    right: here 24 cells in a grid 20 cells wide, both in the loop run on
    the car porch alone and in the whole run. *)
Theorem wide_room_leaves_grid :
  (∃ cell_m, site_grid wide_porch_inputs = Ok (20, 33, cell_m)) ∧
  (∃ s, pack 20 33 (1 # 2) [("Car Porch", 12, 55 # 10)%Q] = Ok s ∧
        layout s !! "Car Porch" = Some (0, 0, 24, 11) ∧ warnings s = []) ∧
  (∃ r, generate sqrt6 wide_porch_inputs = Ok (Generated r) ∧
        res_layout r !! "Car Porch" = Some (0, 0, 24, 11)) ∧
  ¬ within 20 33 (0, 0, 24, 11).
Proof.
  split; [by eexists|].
  split; [eexists; by vm_compute|].
  split; [eexists; by vm_compute|].
  unfold within. lia.
Qed.

(** ** The sort *)

Section SortFacts.
Context {A : Type} (key : A → Q).

Lemma insert_desc_perm x l : Permutation (x :: l) (insert_desc key x l).
Proof.
  induction l as [|y l IH]; simpl; [done|].
  destruct (Qle_bool (key y) (key x)); [done|].
  rewrite perm_swap. by apply perm_skip.
Qed.

Lemma sort_desc_perm l : Permutation l (sort_desc key l).
Proof.
  induction l as [|x l IH]; simpl; [done|].
  rewrite <- insert_desc_perm. by apply perm_skip.
Qed.

Lemma insert_desc_sorted x l :
  StronglySorted (key_ge key) l →
  StronglySorted (key_ge key) (insert_desc key x l).
Proof.
  induction 1 as [|y l Hs IH Hy]; simpl.
  - repeat constructor.
  - destruct (Qle_bool (key y) (key x)) eqn:C.
    + apply Qle_bool_iff in C. constructor; [by constructor|].
      constructor; [done|].
      eapply Forall_impl; [exact Hy|]. unfold key_ge. intros z Hz.
      by eapply Qle_trans.
    + assert (key x < key y)%Q as Hlt.
      { apply Qnot_le_lt. intros Hle. apply Qle_bool_iff in Hle. congruence. }
      constructor; [done|].
      rewrite <- insert_desc_perm. constructor; [|done].
      unfold key_ge. by apply Qlt_le_weak.
Qed.

Lemma sort_desc_sorted l : StronglySorted (key_ge key) (sort_desc key l).
Proof.
  induction l as [|x l IH]; simpl; [constructor|].
  by apply insert_desc_sorted.
Qed.

(** Insertion moves [x] only past entries of a strictly greater key. *)
Lemma insert_desc_stable k x l :
  with_key key k (insert_desc key x l) = with_key key k (x :: l).
Proof.
  induction l as [|y l IH]; [done|]. simpl.
  destruct (Qle_bool (key y) (key x)) eqn:C; [done|].
  simpl in *. rewrite IH.
  destruct (Qeq_bool (key x) k) eqn:Ex, (Qeq_bool (key y) k) eqn:Ey; try done.
  apply Qeq_bool_iff in Ex, Ey.
  assert (Qle_bool (key y) (key x) = true); [|congruence].
  apply Qle_bool_iff. rewrite Ex, Ey. apply Qle_refl.
Qed.

Lemma sort_desc_stable k l :
  with_key key k (sort_desc key l) = with_key key k l.
Proof.
  induction l as [|x l IH]; [done|]. simpl.
  rewrite insert_desc_stable. unfold with_key in *. simpl. by rewrite IH.
Qed.

End SortFacts.




(** ** An overflowing room *)

(** C4, as stated, fails.  In a grid of 20 x 33 cells the cursor is at
    (12, 0) on a shelf 20 cells high after the first hall.  The second hall
    does not fit the shelf, so the cursor wraps to (0, 20) with shelf height
    0; it does not fit below either and is skipped, and the cursor stays
    where the wrap put it. *)
Lemma overflow_after_wrap_moves_cursor :
  ∃ s1 s2,
    pack 20 33 (1 # 2) [("Hall 1", 6, 10)%Q] = Ok s1 ∧
    place 20 33 (1 # 2) s1 ("Hall 2", 6, 10)%Q = Ok s2 ∧
    pack 20 33 (1 # 2) two_halls = Ok s2 ∧
    warnings s2 = ["Hall 2"] ∧ layout s2 = layout s1 ∧
    cursor s1 = (12, 0, 20) ∧ cursor s2 = (0, 20, 0) ∧
    cursor s2 ≠ cursor s1.
Proof. do 2 eexists. by vm_compute. Qed.

(** C4, amended.  When the vertical check fails (it is made on the cursor
    as the wrap step left it), the room is recorded as overflow, the layout
    is unchanged, and the cursor is the one the wrap step produced: the
    cursor from before the room if the room fitted the current shelf, and
    [(0, cursor_y + max_row_height, 0)] if it did not. *)
Theorem overflow_keeps_wrapped_cursor (build_w build_h : Z) (cell_m : Q)
    (s : pack_state) (name : string) (w_m h_m : Q) (w_cells h_cells : Z) :
  cells w_m cell_m = Ok w_cells →
  cells h_m cell_m = Ok h_cells →
  cursor_y (wrap build_w w_cells s) + h_cells > build_h →
  ∃ s', place build_w build_h cell_m s (name, w_m, h_m) = Ok s' ∧
    warnings s' = warnings s ++ [name] ∧
    layout s' = layout s ∧
    cursor s' = cursor (wrap build_w w_cells s) ∧
    (cursor_x s + w_cells ≤ build_w → cursor s' = cursor s) ∧
    (cursor_x s + w_cells > build_w →
       cursor s' = (0, cursor_y s + max_row_height s, 0)).
Proof.
  intros Ew Eh Hv. unfold place. rewrite Ew, Eh. eexists. split; [done|].
  unfold settle. apply Z.gtb_gt in Hv. rewrite Hv. simpl.
  rewrite wrap_warnings, wrap_layout. do 3 (split; [done|]).
  unfold wrap, cursor. split; intros Hc.
  - destruct (cursor_x s + w_cells >? build_w) eqn:C; [|done].
    apply Z.gtb_gt in C. lia.
  - apply Z.gtb_gt in Hc. by rewrite Hc.
Qed.

(** A room 4 x 40 cells at the start of the loop: too tall, no wrap. *)
Lemma overflow_keeps_wrapped_cursor_witness :
  ∃ s', place 20 33 (1 # 2) init_state ("Tower", 2, 20)%Q = Ok s' ∧
    warnings s' = ["Tower"] ∧ layout s' = ∅ ∧ cursor s' = (0, 0, 0).
Proof.
  destruct (overflow_keeps_wrapped_cursor 20 33 (1 # 2) init_state
              "Tower" 2 20 4 40) as (s' & H1 & H2 & H3 & H4 & _);
    [reflexivity | reflexivity | vm_compute; reflexivity |].
  exists s'. repeat split; assumption.
Defined.

(** ** No buildable space *)

(** C5.  When the buildable width or height is not positive the run stops
    with [NoBuildableSpace], which carries no layout.  The stop comes before
    the rooms are looked at: the outcome is the same whatever the room
    inputs are, also where preparing the rooms would raise. *)
Theorem no_buildable_space_stops (fsqrt : Q → Q) (i : inputs)
    (build_w build_h : Z) (cell_m : Q) :
  site_grid i = Ok (build_w, build_h, cell_m) →
  build_w ≤ 0 ∨ build_h ≤ 0 →
  generate fsqrt i = Ok NoBuildableSpace.
Proof.
  intros Hg Hb. unfold generate. rewrite Hg. simpl.
  destruct (build_w <=? 0) eqn:Cw; [done|].
  destruct (build_h <=? 0) eqn:Ch; [done|].
  apply Z.leb_gt in Cw, Ch. lia.
Qed.

Lemma no_buildable_space_stops_witness :
  prepare_rooms sqrt6 no_space_inputs = Raise ZeroDivisionError ∧
  generate sqrt6 no_space_inputs = Ok NoBuildableSpace.
Proof.
  split; [reflexivity|].
  apply (no_buildable_space_stops sqrt6 no_space_inputs 0 33 (inject_Z 50 / 100));
    [reflexivity | left; lia].
Defined.

(** ** Scenario A: the defaults of the form *)

(** C6, as stated, fails: the buildable height is not 37 cells. *)
Lemma scenario_A_height_is_not_37 :
  ¬ ∃ cell_m, site_grid default_inputs = Ok (20, 37, cell_m).
Proof. intros [cell_m H]. vm_compute in H. discriminate. Qed.

(** C6, amended.  Plot 14 m x 24 m, setbacks 4.5/3/2/2 m, grid snap 50 cm:
    the cell is 0.5 m, the buildable grid 20 x 33 cells (48 - 9 - 6 = 33),
    and the 3.2 m x 5.5 m car porch is 6 x 11 cells.  When the car porch is
    the first room placed it goes to (0,0).  In the run on the form's
    defaults the lounge (20 square metres against 17.6) is placed first, at
    (0,0) with 10 x 8 cells, and the car porch goes to (10,0). *)
Theorem scenario_A :
  ∃ cell_m,
    site_grid default_inputs = Ok (20, 33, cell_m) ∧
    (cell_m == 1 # 2)%Q ∧
    cells (32 # 10) cell_m = Ok 6 ∧
    cells (55 # 10) cell_m = Ok 11 ∧
    place 20 33 cell_m init_state ("Car Porch", 32 # 10, 55 # 10)%Q =
      Ok {| cursor_x := 6; cursor_y := 0; max_row_height := 11;
            layout := {[ "Car Porch" := (0, 0, 6, 11) ]}; warnings := [] |} ∧
    ∃ r, generate sqrt6 default_inputs = Ok (Generated r) ∧
         res_layout r !! "Lounge" = Some (0, 0, 10, 8) ∧
         res_layout r !! "Car Porch" = Some (10, 0, 6, 11).
Proof.
  eexists. split; [reflexivity|]. split; [reflexivity|].
  do 3 (split; [reflexivity|]).
  eexists. split; [reflexivity|]. by vm_compute.
Qed.

(** ** Measurements that the specification calls invalid *)








(** ** Overflowed rooms are not in the layout *)

Lemma pack_from_overflow_apart (build_w build_h : Z) (cell_m : Q)
    (rooms : list room) (s s' : pack_state) :
  NoDup (room_name <$> rooms) →
  (∀ n, n ∈ warnings s → layout s !! n = None) →
  (∀ n, n ∈ (room_name <$> rooms) →
        (n ∉ warnings s) ∧ (layout s !! n = None)) →
  pack_from build_w build_h cell_m s rooms = Ok s' →
  ∀ n, n ∈ warnings s' → layout s' !! n = None.
Proof.
  revert s. induction rooms as [|[[name w_m] h_m] rooms IH]; intros s; simpl.
  - by intros _ Hw _ [= <-].
  - intros Hnd Hw Hr.
    apply NoDup_cons in Hnd as [Hfresh Hnd].
    destruct (cells w_m cell_m) as [w|]; [|done].
    destruct (cells h_m cell_m) as [h|]; [|done]. simpl.
    destruct (Hr name) as [Hnw Hnl]; [by left|].
    apply IH; [done| |]; unfold settle;
      destruct (_ >? build_h); simpl;
      rewrite ?wrap_warnings, ?wrap_layout.
    + intros n Hn. apply elem_of_app in Hn as [Hn|Hn]; [by apply Hw|].
      apply list_elem_of_singleton in Hn as ->. done.
    + intros n Hn. rewrite lookup_insert_ne; [by apply Hw|].
      intros <-. done.
    + intros n Hn. destruct (Hr n) as [H1 H2]; [by right|].
      split; [|done]. intros Hin. apply elem_of_app in Hin as [Hin|Hin]; [done|].
      apply list_elem_of_singleton in Hin as ->. done.
    + intros n Hn. destruct (Hr n) as [H1 H2]; [by right|].
      split; [done|]. rewrite lookup_insert_ne; [done|]. by intros <-.
Qed.

(** With distinct room names, as the preparation code gives them, no room
    warned about has an entry in the layout. *)
Lemma overflow_not_in_layout (build_w build_h : Z) (cell_m : Q)
    (rooms : list room) (s : pack_state) :
  NoDup (room_name <$> rooms) →
  pack build_w build_h cell_m rooms = Ok s →
  ∀ n, n ∈ warnings s → layout s !! n = None.
Proof.
  intros Hnd Hs. eapply pack_from_overflow_apart; [exact Hnd| | |exact Hs].
  - intros n Hn. simpl in Hn. by apply elem_of_nil in Hn.
  - intros n _. simpl. split; [apply not_elem_of_nil|apply lookup_empty].
Qed.

(** ** Coverage *)

Lemma built_area_empty (cell_m : Q) : built_area ∅ cell_m = 0%Q.
Proof. unfold built_area. by rewrite map_fold_empty. Qed.

Lemma built_area_nonneg (lay : gmap string rect) (cell_m : Q) :
  (∀ n x y w h, lay !! n = Some (x, y, w, h) → 1 ≤ w ∧ 1 ≤ h) →
  (0 <= built_area lay cell_m)%Q.
Proof.
  unfold built_area.
  apply (map_fold_weak_ind
    (λ acc (m : gmap string rect),
       (∀ n x y w h, m !! n = Some (x, y, w, h) → 1 ≤ w ∧ 1 ≤ h) →
       (0 <= acc)%Q)).
  - intros _. apply Qle_refl.
  - intros n [[[x y] w] h] m acc Hn IH Hall.
    assert (0 <= acc)%Q as Hacc.
    { apply IH. intros n' x' y' w' h' Hn'. apply (Hall n' x' y').
      rewrite lookup_insert_ne; [done|]. intros ->. congruence. }
    destruct (Hall n x y w h) as [Hw Hh]; [by rewrite lookup_insert_eq|].
    assert (0 <= inject_Z (w * h))%Q as Hwh.
    { change 0%Q with (inject_Z 0). rewrite <- Zle_Qle. nia. }
    assert (0 <= cell_m * cell_m)%Q as Hcc by nra.
    assert (0 <= inject_Z (w * h) * (cell_m * cell_m))%Q
      by (by apply Qmult_le_0_compat).
    lra.
Qed.

(** The figure for a layout of rooms at least one cell wide and high, on a
    plot of positive gross area. *)
Lemma coverage_pct_spec (lay : gmap string rect) (cell_m plot_w plot_d : Q) :
  (∀ n x y w h, lay !! n = Some (x, y, w, h) → 1 ≤ w ∧ 1 ≤ h) →
  (0 < plot_w * plot_d)%Q →
  coverage_pct lay cell_m plot_w plot_d =
    Ok (built_area lay cell_m / (plot_w * plot_d) * 100)%Q ∧
  (0 <= built_area lay cell_m / (plot_w * plot_d) * 100)%Q ∧
  (lay = ∅ → (built_area lay cell_m / (plot_w * plot_d) * 100 == 0)%Q).
Proof.
  intros Hall Hpos. split; [|split].
  - unfold coverage_pct. rewrite fdiv_ok; [done|lra].
  - pose proof (built_area_nonneg lay cell_m Hall) as Hb.
    assert (0 <= built_area lay cell_m / (plot_w * plot_d))%Q.
    { apply Qle_shift_div_l; [done|]. lra. }
    lra.
  - intros ->. rewrite built_area_empty. unfold Qdiv. by rewrite !Qmult_0_l.
Qed.

(** [built_area] is the sum, from 0, of [w * h * cell_m * cell_m] over the
    values of the layout. *)
Lemma built_area_sum (lay : gmap string rect) (cell_m : Q) :
  built_area lay cell_m =
    foldr (λ (v : rect) acc,
             let '(_, _, w, h) := v in
             (acc + inject_Z (w * h) * cell_m * cell_m)%Q)
          0%Q ((map_to_list lay).*2).
Proof.
  unfold built_area. rewrite map_fold_foldr.
  induction (map_to_list lay) as [|[n v] l IH]; [done|].
  csimpl. by rewrite IH.
Qed.

(** C8.  The coverage figure is the built area over the gross plot area,
    times 100, where the built area is the sum of [w * h * cell_m * cell_m]
    over the rooms in the layout and over nothing else: a room that has
    overflowed is not in the layout (with distinct names) and adds nothing.
    For positive plot dimensions the division succeeds and the figure is not
    negative; it is 0 when the room list is empty and when every room has
    overflowed. *)
Theorem coverage_of_placed_rooms (build_w build_h : Z) (cell_m : Q)
    (rooms : list room) (plot_w plot_d : Q) :
  ¬ (cell_m == 0)%Q → (0 < plot_w)%Q → (0 < plot_d)%Q →
  ∃ s c,
    pack build_w build_h cell_m rooms = Ok s ∧
    coverage_pct (layout s) cell_m plot_w plot_d = Ok c ∧
    c = (foldr (λ (v : rect) acc,
                  let '(_, _, w, h) := v in
                  (acc + inject_Z (w * h) * cell_m * cell_m)%Q)
               0%Q ((map_to_list (layout s)).*2)
           / (plot_w * plot_d) * 100)%Q ∧
    (c == built_area (layout s) cell_m / (plot_w * plot_d) * 100)%Q ∧
    (NoDup (room_name <$> rooms) →
       ∀ n, n ∈ warnings s → layout s !! n = None) ∧
    (0 <= c)%Q ∧
    (rooms = [] → (c == 0)%Q) ∧
    (length (warnings s) = length rooms → layout s = ∅ ∧ (c == 0)%Q).
Proof.
  intros Hc Hw Hd.
  destruct (pack_total build_w build_h cell_m rooms Hc) as [s Hs].
  assert (0 < plot_w * plot_d)%Q as Hpos by nra.
  destruct (coverage_pct_spec (layout s) cell_m plot_w plot_d)
    as (Hcov & Hge & Hz); [|done|].
  { intros n x y w h Hn.
    pose proof (inv_shelved _ _ (pack_inv _ build_h _ _ _ Hs) n _ Hn) as Hsh.
    unfold shelved in Hsh. lia. }
  exists s, (built_area (layout s) cell_m / (plot_w * plot_d) * 100)%Q.
  split; [done|]. split; [done|].
  split; [by rewrite built_area_sum|]. split; [reflexivity|].
  split; [intros Hnd; by eapply overflow_not_in_layout|].
  split; [done|]. split.
  - intros ->. apply Hz. unfold pack in Hs. simpl in Hs. by injection Hs as <-.
  - intros Hlen.
    destruct (pack_from_overflow_count _ _ _ _ _ _ Hs) as [_ Heq].
    assert (layout s = ∅) as He by (apply Heq; simpl; lia).
    split; [done|]. by apply Hz.
Qed.

(** On a plot of 16 m x 32 m and a half-metre grid of 20 x 33 cells the car
    porch is placed with 6 x 11 cells and the tower (4 x 40 cells)
    overflows: the built area is 66 cells of 0.25 square metres, 16.5 square
    metres, and the coverage 16.5 / 512 * 100 = 3.22265625. *)
Lemma coverage_of_placed_rooms_witness :
  ∃ s c,
    pack 20 33 (1 # 2) porch_and_tower = Ok s ∧
    layout s = {[ "Car Porch" := (0, 0, 6, 11) ]} ∧
    warnings s = ["Tower"] ∧
    coverage_pct (layout s) (1 # 2) 16 32 = Ok c ∧
    (built_area (layout s) (1 # 2) == 165 # 10)%Q ∧
    (c == 322265625 # 100000000)%Q.
Proof.
  destruct (coverage_of_placed_rooms 20 33 (1 # 2) porch_and_tower 16 32)
    as (s & c & Hs & Hc & _ & Hf & _);
    [discriminate | reflexivity | reflexivity |].
  assert (s = {| cursor_x := 6; cursor_y := 0; max_row_height := 11;
                 layout := {[ "Car Porch" := (0, 0, 6, 11) ]};
                 warnings := ["Tower"] |}) as Es.
  { vm_compute in Hs. by injection Hs as <-. }
  exists s, c. subst s. simpl in *.
  do 4 (split; [done|]). split.
  - by vm_compute.
  - rewrite Hf. by vm_compute.
Defined.

(** ** The whole run *)

(** What a run that reaches the coverage line has gone through. *)
Lemma generate_inv (fsqrt : Q → Q) (i : inputs) (r : result) :
  generate fsqrt i = Ok (Generated r) →
  ∃ build_w build_h raw rooms s,
    site_grid i = Ok (build_w, build_h, res_cell_m r) ∧
    0 < build_w ∧ 0 < build_h ∧
    prepare_rooms fsqrt i = Ok raw ∧
    rooms_sort raw = Ok rooms ∧
    pack build_w build_h (res_cell_m r) rooms = Ok s ∧
    coverage_pct (layout s) (res_cell_m r) (PLOT_WIDTH i) (PLOT_DEPTH i)
      = Ok (res_coverage r) ∧
    res_layout r = layout s ∧ res_overflow r = warnings s.
Proof.
  unfold generate.
  destruct (site_grid i) as [[[bw bh] cell_m]|] eqn:Eg; [|done]. simpl.
  destruct (bw <=? 0) eqn:Cw; [done|].
  destruct (bh <=? 0) eqn:Ch; [done|]. simpl.
  destruct (prepare_rooms fsqrt i) as [raw|] eqn:Ep; [|done]. simpl.
  destruct (rooms_sort raw) as [rooms|] eqn:Es; [|done]. simpl.
  destruct (pack bw bh cell_m rooms) as [s|] eqn:Ek; [|done]. simpl.
  destruct (coverage_pct _ _ _ _) as [c|] eqn:Ec; [|done]. simpl.
  intros [= <-]. simpl. apply Z.leb_gt in Cw, Ch.
  by exists bw, bh, raw, rooms, s.
Qed.

(** The cell size that reaches the loop is never zero. *)
Lemma site_grid_cell_nonzero (i : inputs) (build_w build_h : Z) (cell_m : Q) :
  site_grid i = Ok (build_w, build_h, cell_m) → ¬ (cell_m == 0)%Q.
Proof.
  unfold site_grid. destruct (Z.eq_dec (grid_snap_cm i) 0) as [E|NE].
  - by rewrite E.
  - rewrite !to_grid_ok by done. simpl. intros [= _ _ <-].
    by rewrite cell_size_zero.
Qed.

(** The layout of every finished run is free of overlap, and every room of
    it lies within the buildable grid on all sides but the right. *)
Lemma generate_no_overlap (fsqrt : Q → Q) (i : inputs) (r : result) :
  generate fsqrt i = Ok (Generated r) →
  no_overlap (res_layout r) ∧
  ∃ build_w build_h,
    site_grid i = Ok (build_w, build_h, res_cell_m r) ∧
    ∀ n x y w h, res_layout r !! n = Some (x, y, w, h) →
      1 ≤ w ∧ 1 ≤ h ∧ 0 ≤ x ∧ 0 ≤ y ∧ y + h ≤ build_h.
Proof.
  intros H. apply generate_inv in H
    as (bw & bh & raw & rooms & s & Hg & _ & _ & _ & _ & Hp & _ & -> & _).
  pose proof (pack_inv bw bh _ _ _ Hp) as I.
  split; [apply (inv_disjoint _ _ I)|].
  exists bw, bh. split; [done|]. intros n x y w h Hn.
  pose proof (inv_shelved _ _ I n _ Hn) as Hsh. unfold shelved in Hsh. lia.
Qed.

(** The coverage figure of a finished run on a plot of positive sides. *)
Lemma generate_coverage (fsqrt : Q → Q) (i : inputs) (r : result) :
  generate fsqrt i = Ok (Generated r) →
  (0 < PLOT_WIDTH i)%Q → (0 < PLOT_DEPTH i)%Q →
  res_coverage r =
    (built_area (res_layout r) (res_cell_m r)
       / (PLOT_WIDTH i * PLOT_DEPTH i) * 100)%Q ∧
  (0 <= res_coverage r)%Q ∧
  (res_layout r = ∅ → (res_coverage r == 0)%Q).
Proof.
  intros H Hw Hd. apply generate_inv in H
    as (bw & bh & raw & rooms & s & _ & _ & _ & _ & _ & Hp & Hc & -> & _).
  destruct (coverage_pct_spec (layout s) (res_cell_m r) (PLOT_WIDTH i) (PLOT_DEPTH i))
    as (Hcov & Hge & Hz); [|nra|].
  { intros n x y w h Hn.
    pose proof (inv_shelved _ _ (pack_inv bw bh _ _ _ Hp) n _ Hn) as Hsh.
    unfold shelved in Hsh. lia. }
  rewrite Hcov in Hc. injection Hc as <-. done.
Qed.

(** * Further properties *)

(** ** Room dimensions from an area *)



(** ** The cell count of a measurement *)

Lemma py_round_floor_bounds (q : Q) :
  Qfloor q ≤ py_round q ≤ Qfloor q + 1.
Proof.
  unfold py_round.
  destruct (2 * (q - inject_Z (Qfloor q)) ?= 1)%Q; try destruct (Z.even _); lia.
Qed.

Ltac compare_to_order :=
  repeat match goal with
  | H : (_ ?= _)%Q = Eq |- _ => apply Qeq_alt in H
  | H : (_ ?= _)%Q = Lt |- _ => apply Qlt_alt in H
  | H : (_ ?= _)%Q = Gt |- _ => apply Qgt_alt in H
  end.

(** Rounding half to even is monotone. *)
Lemma py_round_mono (q q' : Q) : (q <= q')%Q → py_round q ≤ py_round q'.
Proof.
  intros Hle. pose proof (Qfloor_resp_le _ _ Hle) as Hf.
  destruct (Z.eq_dec (Qfloor q) (Qfloor q')) as [E|NE].
  - unfold py_round. rewrite <- E.
    destruct (2 * (q - inject_Z (Qfloor q)) ?= 1)%Q eqn:C;
      destruct (2 * (q' - inject_Z (Qfloor q)) ?= 1)%Q eqn:C';
      try destruct (Z.even _); try lia; exfalso; compare_to_order; lra.
  - pose proof (py_round_floor_bounds q). pose proof (py_round_floor_bounds q').
    lia.
Qed.

(** X4.  On a positive grid snap a longer measurement never gets fewer
    cells than a shorter one. *)
Theorem to_grid_monotone (m1 m2 : Q) (snap_cm : Z) :
  0 < snap_cm → (m1 <= m2)%Q →
  ∃ n1 n2 cell_m,
    to_grid m1 snap_cm = Ok (n1, cell_m) ∧
    to_grid m2 snap_cm = Ok (n2, cell_m) ∧ n1 ≤ n2.
Proof.
  intros Hs Hle. assert (snap_cm ≠ 0) as Hn by lia.
  rewrite !to_grid_ok by done. do 3 eexists. do 2 (split; [reflexivity|]).
  apply Z.max_le_compat_l, py_round_mono.
  pose proof (cell_size_pos snap_cm Hs) as Hc.
  apply Qmult_le_compat_r; [done|].
  apply Qinv_le_0_compat. lra.
Qed.

Lemma to_grid_monotone_witness :
  ∃ n1 n2 cell_m,
    to_grid (32 # 10) 50 = Ok (n1, cell_m) ∧
    to_grid (55 # 10) 50 = Ok (n2, cell_m) ∧ n1 ≤ n2.
Proof.
  apply (to_grid_monotone (32 # 10) (55 # 10) 50); [lia | discriminate].
Defined.

(** ** The sort, characterised *)

Section StableUnique.
Context {A : Type} (key : A → Q).

Lemma with_key_elem k a l :
  a ∈ with_key key k l ↔ a ∈ l ∧ (key a == k)%Q.
Proof.
  unfold with_key. rewrite !list_elem_of_In, filter_In, Qeq_bool_iff. done.
Qed.

(** In a descending list the head has the greatest key. *)
Lemma sorted_head_max a l b :
  StronglySorted (key_ge key) (a :: l) → b ∈ a :: l → (key b <= key a)%Q.
Proof.
  intros Hs Hb. apply StronglySorted_inv in Hs as [_ Hall].
  apply elem_of_cons in Hb as [->|Hb]; [apply Qle_refl|].
  rewrite Forall_forall in Hall. by apply Hall.
Qed.

(** Two descending lists with the same entries, in the same order, under
    every key value are the same list. *)
Lemma stable_sorted_unique (l1 l2 : list A) :
  StronglySorted (key_ge key) l1 →
  StronglySorted (key_ge key) l2 →
  (∀ k, with_key key k l1 = with_key key k l2) →
  l1 = l2.
Proof.
  revert l2. induction l1 as [|a l1 IH]; intros l2 H1 H2 Hk.
  - destruct l2 as [|b l2]; [done|].
    specialize (Hk (key b)). unfold with_key in Hk. simpl in Hk.
    by rewrite Qeq_bool_refl in Hk.
  - destruct l2 as [|b l2].
    { specialize (Hk (key a)). unfold with_key in Hk. simpl in Hk.
      by rewrite Qeq_bool_refl in Hk. }
    assert (key a == key b)%Q as Eab.
    { apply Qle_antisym.
      - apply (sorted_head_max b l2 a H2).
        assert (a ∈ with_key key (key a) (a :: l1)) as Ha
          by (apply with_key_elem; split; [left|reflexivity]).
        rewrite Hk in Ha. by apply with_key_elem in Ha as [Ha _].
      - apply (sorted_head_max a l1 b H1).
        assert (b ∈ with_key key (key b) (b :: l2)) as Hb
          by (apply with_key_elem; split; [left|reflexivity]).
        rewrite <- Hk in Hb. by apply with_key_elem in Hb as [Hb _]. }
    assert (a = b) as <-.
    { pose proof (Hk (key a)) as Ha. unfold with_key in Ha. simpl in Ha.
      rewrite Qeq_bool_refl in Ha.
      assert (Qeq_bool (key b) (key a) = true) as Eb
        by (apply Qeq_bool_iff; by symmetry).
      rewrite Eb in Ha. by injection Ha. }
    f_equal. apply IH.
    + by apply StronglySorted_inv in H1 as [? _].
    + by apply StronglySorted_inv in H2 as [? _].
    + intros k. specialize (Hk k). unfold with_key in *. simpl in Hk.
      destruct (Qeq_bool (key a) k); [by injection Hk|done].
Qed.

End StableUnique.



(** X7.  A room list that is already in descending order of area comes out
    of the sort unchanged. *)
Theorem sort_desc_sorted_id (rooms : list room) :
  StronglySorted (key_ge area_key) rooms →
  sort_desc area_key rooms = rooms.
Proof.
  intros Hs. symmetry. apply (stable_sorted_unique area_key); [done| |].
  - apply sort_desc_sorted.
  - intros k. by rewrite sort_desc_stable.
Qed.

Lemma sort_desc_sorted_id_witness :
  sort_desc area_key four_rooms = four_rooms.
Proof.
  apply sort_desc_sorted_id.
  repeat constructor; unfold key_ge; simpl; discriminate.
Defined.

(** ** Every room is accounted for *)

Section Accounting.
Variables (build_w build_h : Z) (cell_m : Q).

(** After a room has been handled its name is a key of the layout or an
    entry of the warnings; nothing else changes hands. *)
Lemma place_seen s r s' :
  place build_w build_h cell_m s r = Ok s' →
  ∀ n, (is_Some (layout s' !! n) ∨ n ∈ warnings s') ↔
       (is_Some (layout s !! n) ∨ n ∈ warnings s) ∨ n = room_name r.
Proof.
  destruct r as [[name w_m] h_m]. unfold place, room_name. simpl.
  destruct (cells w_m cell_m) as [w|]; [|done].
  destruct (cells h_m cell_m) as [h|]; [|done].
  intros [= <-] n. unfold settle.
  destruct (_ >? build_h); simpl; rewrite wrap_layout, wrap_warnings.
  - rewrite elem_of_app, list_elem_of_singleton. tauto.
  - destruct (decide (name = n)) as [->|Hne].
    + rewrite lookup_insert_eq. split; [by right|]. intros _. by left.
    + rewrite lookup_insert_ne by done. split; [tauto|].
      intros [?|?]; [done|congruence].
Qed.

Lemma pack_from_seen rooms s s' :
  pack_from build_w build_h cell_m s rooms = Ok s' →
  ∀ n, (is_Some (layout s' !! n) ∨ n ∈ warnings s') ↔
       (is_Some (layout s !! n) ∨ n ∈ warnings s) ∨ n ∈ (room_name <$> rooms).
Proof.
  revert s. induction rooms as [|r rooms IH]; intros s; simpl.
  - intros [= <-] n. rewrite elem_of_nil. tauto.
  - destruct (place build_w build_h cell_m s r) as [s1|] eqn:E; [|done].
    intros H n. rewrite (IH _ H n), (place_seen _ _ _ E n), elem_of_cons.
    tauto.
Qed.

(** The warnings grow at the end, in the order of the rooms. *)
Lemma pack_from_warnings rooms s s' :
  pack_from build_w build_h cell_m s rooms = Ok s' →
  ∃ l, warnings s' = warnings s ++ l ∧ l `sublist_of` (room_name <$> rooms).
Proof.
  revert s. induction rooms as [|[[name w_m] h_m] rooms IH]; intros s; simpl.
  - intros [= <-]. exists []. by rewrite app_nil_r.
  - destruct (cells w_m cell_m) as [w|]; [|done].
    destruct (cells h_m cell_m) as [h|]; [|done]. simpl.
    intros H. destruct (IH _ H) as (l & Hl & Hsub). revert Hl.
    unfold settle. destruct (_ >? build_h); simpl; rewrite wrap_warnings.
    + rewrite <- app_assoc. intros Hl. exists (name :: l).
      split; [done|]. by apply sublist_skip.
    + intros Hl. exists l. split; [done|]. by apply sublist_cons.
Qed.

End Accounting.

(** X8.  With distinct room names, every room of the list ends up either
    as a key of the layout or in the overflow warnings, never in both, and
    nothing else is in either. *)
Theorem every_room_placed_or_warned (build_w build_h : Z) (cell_m : Q)
    (rooms : list room) :
  ¬ (cell_m == 0)%Q →
  NoDup (room_name <$> rooms) →
  ∃ s, pack build_w build_h cell_m rooms = Ok s ∧
    ∀ n, (n ∈ (room_name <$> rooms) ↔
            is_Some (layout s !! n) ∨ n ∈ warnings s) ∧
         ¬ (is_Some (layout s !! n) ∧ n ∈ warnings s).
Proof.
  intros Hc Hnd. destruct (pack_total build_w build_h cell_m rooms Hc) as [s Hs].
  exists s. split; [done|]. intros n. split.
  - rewrite (pack_from_seen _ _ _ _ _ _ Hs n). simpl.
    rewrite lookup_empty, elem_of_nil. split; [tauto|].
    intros [[[? ?]|[]]|?]; done.
  - intros [[v Hv] Hw].
    rewrite (overflow_not_in_layout _ _ _ _ _ Hnd Hs n Hw) in Hv. done.
Qed.

Lemma every_room_placed_or_warned_witness :
  ∃ s, pack 20 33 (1 # 2) two_halls = Ok s ∧
       (is_Some (layout s !! "Hall 2") ∨ "Hall 2" ∈ warnings s) ∧
       ¬ (is_Some (layout s !! "Hall 1") ∧ "Hall 1" ∈ warnings s).
Proof.
  destruct (every_room_placed_or_warned 20 33 (1 # 2) two_halls)
    as (s & Hs & Hall); [discriminate | |].
  { by apply (bool_decide_unpack _). }
  exists s. split; [exact Hs|]. split.
  - apply (Hall "Hall 2"). by apply (bool_decide_unpack _).
  - apply (Hall "Hall 1").
Defined.

(** X9.  The overflow warnings come in placement order: the list of warned
    names is a sublist of the list of room names as the loop reads it. *)
Theorem warnings_in_room_order (build_w build_h : Z) (cell_m : Q)
    (rooms : list room) :
  ¬ (cell_m == 0)%Q →
  ∃ s, pack build_w build_h cell_m rooms = Ok s ∧
       warnings s `sublist_of` (room_name <$> rooms).
Proof.
  intros Hc. destruct (pack_total build_w build_h cell_m rooms Hc) as [s Hs].
  exists s. split; [done|].
  destruct (pack_from_warnings _ _ _ _ _ _ Hs) as (l & -> & Hsub). done.
Qed.

Lemma warnings_in_room_order_witness :
  ∃ s, pack 20 33 (1 # 2) two_halls = Ok s ∧
       warnings s `sublist_of` ["Hall 1"; "Hall 2"].
Proof.
  apply (warnings_in_room_order 20 33 (1 # 2) two_halls). discriminate.
Defined.

(** ** The cell budget *)





Section Budget.
Variables (build_w build_h : Z) (cell_m : Q).



End Budget.



(** ** The whole run, once more *)

Lemma py_round_pos (q : Q) : 1 ≤ py_round q → (0 < q)%Q.
Proof.
  intros H. apply Qnot_le_lt. intros Hq. apply py_round_nonpos in Hq. lia.
Qed.

(** A buildable grid needs a plot of at least three cells each way, so the
    plot sides have the sign of the cell size and their product is
    positive. *)
Lemma buildable_plot_positive (i : inputs) (build_w build_h : Z) (cell_m : Q) :
  site_grid i = Ok (build_w, build_h, cell_m) →
  0 < build_w → 0 < build_h →
  (0 < PLOT_WIDTH i * PLOT_DEPTH i)%Q.
Proof.
  unfold site_grid. destruct (Z.eq_dec (grid_snap_cm i) 0) as [E|NE].
  { by rewrite E. }
  rewrite !to_grid_ok by done. simpl. intros [= <- <- <-] Hw Hh.
  set (c := (inject_Z (grid_snap_cm i) / 100)%Q) in *.
  assert (¬ (c == 0)%Q) as Hc by (unfold c; by rewrite cell_size_zero).
  assert (0 < PLOT_WIDTH i / c)%Q as Hqw by (apply py_round_pos; lia).
  assert (0 < PLOT_DEPTH i / c)%Q as Hqd by (apply py_round_pos; lia).
  assert (PLOT_WIDTH i * PLOT_DEPTH i
            == (PLOT_WIDTH i / c) * (PLOT_DEPTH i / c) * (c * c))%Q as ->
    by (by field).
  assert (0 < c * c)%Q by (destruct (Q_dec c 0) as [[?|?]|?]; [nra|nra|done]).
  apply Qmult_lt_0_compat; [by apply Qmult_lt_0_compat|done].
Qed.

(** X11.  Every run that reaches the coverage line has a plot of positive
    gross area, whatever the signs of the inputs, and reports a coverage
    that is not negative. *)
Theorem finished_run_coverage (fsqrt : Q → Q) (i : inputs) (r : result) :
  generate fsqrt i = Ok (Generated r) →
  (0 < PLOT_WIDTH i * PLOT_DEPTH i)%Q ∧
  res_coverage r =
    (built_area (res_layout r) (res_cell_m r)
       / (PLOT_WIDTH i * PLOT_DEPTH i) * 100)%Q ∧
  (0 <= res_coverage r)%Q.
Proof.
  intros H. apply generate_inv in H
    as (bw & bh & raw & rooms & s & Hg & Hw & Hh & _ & _ & Hp & Hc & -> & _).
  pose proof (buildable_plot_positive i bw bh _ Hg Hw Hh) as Hpos.
  split; [done|].
  destruct (coverage_pct_spec (layout s) (res_cell_m r) (PLOT_WIDTH i) (PLOT_DEPTH i))
    as (Hcov & Hge & _); [|done|].
  { intros n x y w h Hn.
    pose proof (inv_shelved _ _ (pack_inv bw bh _ _ _ Hp) n _ Hn) as Hsh.
    unfold shelved in Hsh. lia. }
  rewrite Hcov in Hc. by injection Hc as <-.
Qed.

Lemma finished_run_coverage_witness :
  ∃ r, generate sqrt6 default_inputs = Ok (Generated r) ∧ (0 <= res_coverage r)%Q.
Proof.
  eexists. split; [reflexivity|].
  eapply (finished_run_coverage sqrt6 default_inputs). reflexivity.
Defined.

(** ** Room preparation *)

Section Preparation.
Variable fsqrt : Q → Q.

(** The only exception [area_to_dims] can raise. *)
Lemma area_to_dims_error area ratio e :
  area_to_dims fsqrt area ratio = Raise e → e = ZeroDivisionError.
Proof.
  unfold area_to_dims. destruct (pow_half fsqrt _) as [w|]; [|done].
  unfold fdiv. destruct (Qeq_bool w 0); [by intros [= <-]|done].
Qed.

(** A negative area gives complex sides. *)
Lemma area_to_dims_negative area :
  (area < 0)%Q →
  area_to_dims fsqrt area default_aspect_ratio = Ok (Complex, Complex).
Proof.
  intros Ha. unfold area_to_dims, pow_half.
  destruct (Qle_bool 0 (area * default_aspect_ratio)) eqn:C; [|done].
  apply Qle_bool_iff in C. unfold default_aspect_ratio in C. lra.
Qed.

(** An area whose square root comes out as zero divides by zero. *)
Lemma area_to_dims_zero area :
  (area == 0)%Q → (∀ x, (x == 0)%Q → (fsqrt x == 0)%Q) →
  area_to_dims fsqrt area default_aspect_ratio = Raise ZeroDivisionError.
Proof.
  intros Ha Hz. unfold area_to_dims, pow_half.
  assert (area * default_aspect_ratio == 0)%Q as Hx by (rewrite Ha; ring).
  assert (Qle_bool 0 (area * default_aspect_ratio) = true) as ->
    by (apply Qle_bool_iff; rewrite Hx; apply Qle_refl).
  by rewrite fdiv_zero by by apply Hz.
Qed.

(** A positive area gives float sides wherever the root is not zero. *)
Lemma area_to_dims_positive area :
  (0 < area)%Q → ¬ (fsqrt (area * default_aspect_ratio) == 0)%Q →
  ∃ w h, area_to_dims fsqrt area default_aspect_ratio = Ok (Float w, Float h).
Proof.
  intros Ha Hz. unfold area_to_dims, pow_half.
  assert (0 < area * default_aspect_ratio)%Q as Hx
    by (unfold default_aspect_ratio; lra).
  assert (Qle_bool 0 (area * default_aspect_ratio) = true) as ->
    by (apply Qle_bool_iff; lra).
  rewrite fdiv_ok by done. by do 2 eexists.
Qed.

Lemma add_bedrooms_inv bedroom_area indices rooms out :
  add_bedrooms fsqrt bedroom_area indices rooms = Ok out →
  ∃ bed,
    (indices = [] ∨ area_to_dims fsqrt bedroom_area default_aspect_ratio = Ok bed) ∧
    out = rooms ++ bedroom_entries bed indices.
Proof.
  revert rooms. induction indices as [|i indices IH]; intros rooms; simpl.
  - intros [= <-]. exists (Complex, Complex). split; [by left|].
    by rewrite app_nil_r.
  - destruct (area_to_dims fsqrt bedroom_area default_aspect_ratio)
      as [[bw bh]|] eqn:E; [|done]. simpl.
    intros H. destruct (IH _ H) as (bed & [->|Hbed] & ->).
    + exists (bw, bh). split; [by right|]. by rewrite <- app_assoc.
    + injection Hbed as <-. exists (bw, bh). split; [by right|].
      by rewrite <- app_assoc.
Qed.

Lemma add_bedrooms_error bedroom_area indices rooms e :
  add_bedrooms fsqrt bedroom_area indices rooms = Raise e →
  e = ZeroDivisionError.
Proof.
  revert rooms. induction indices as [|i indices IH]; intros rooms; simpl; [done|].
  destruct (area_to_dims fsqrt bedroom_area default_aspect_ratio)
    as [[bw bh]|e0] eqn:E; simpl.
  - apply IH.
  - intros [= <-]. by eapply area_to_dims_error.
Qed.

(** The room list of a preparation that went through. *)
Lemma prepare_rooms_inv (i : inputs) raw :
  prepare_rooms fsqrt i = Ok raw →
  ∃ lounge bed bath,
    area_to_dims fsqrt (lounge_area i) default_aspect_ratio = Ok lounge ∧
    (seqZ 1 (bedrooms_count i) = [] ∨
     area_to_dims fsqrt (bedroom_area i) default_aspect_ratio = Ok bed) ∧
    area_to_dims fsqrt (bath_area i) default_aspect_ratio = Ok bath ∧
    raw = [("Car Porch", Float (car_w i), Float (car_d i));
           ("Lounge", lounge.1, lounge.2)]
          ++ bedroom_entries bed (seqZ 1 (bedrooms_count i))
          ++ [("Bath", bath.1, bath.2)].
Proof.
  unfold prepare_rooms.
  destruct (area_to_dims fsqrt (lounge_area i) _) as [[lw lh]|] eqn:El; [|done].
  simpl.
  destruct (add_bedrooms fsqrt _ _ _) as [rooms|] eqn:Eb; [|done]. simpl.
  destruct (area_to_dims fsqrt (bath_area i) _) as [[tw th]|] eqn:Et; [|done].
  simpl. intros [= <-].
  apply add_bedrooms_inv in Eb as (bed & Hbed & ->).
  by exists (lw, lh), bed, (tw, th).
Qed.

Lemma prepare_rooms_error (i : inputs) e :
  prepare_rooms fsqrt i = Raise e → e = ZeroDivisionError.
Proof.
  unfold prepare_rooms.
  destruct (area_to_dims fsqrt (lounge_area i) _) as [[lw lh]|] eqn:El; simpl;
    [|intros [= <-]; by eapply area_to_dims_error].
  destruct (add_bedrooms fsqrt _ _ _) as [rooms|] eqn:Eb; simpl;
    [|intros [= <-]; by eapply add_bedrooms_error].
  destruct (area_to_dims fsqrt (bath_area i) _) as [[tw th]|] eqn:Et; simpl;
    [done|intros [= <-]; by eapply area_to_dims_error].
Qed.

End Preparation.

Section PreparedRuns.
Variable fsqrt : Q → Q.

Lemma add_bedrooms_ok bedroom_area indices rooms bed :
  area_to_dims fsqrt bedroom_area default_aspect_ratio = Ok bed →
  add_bedrooms fsqrt bedroom_area indices rooms
    = Ok (rooms ++ bedroom_entries bed indices).
Proof.
  intros Hbed. revert rooms.
  induction indices as [|i indices IH]; intros rooms; simpl.
  - by rewrite app_nil_r.
  - rewrite Hbed. destruct bed as [bw bh]. simpl. rewrite IH.
    by rewrite <- app_assoc.
Qed.

Lemma prepare_rooms_ok (i : inputs) lounge bed bath :
  area_to_dims fsqrt (lounge_area i) default_aspect_ratio = Ok lounge →
  area_to_dims fsqrt (bedroom_area i) default_aspect_ratio = Ok bed →
  area_to_dims fsqrt (bath_area i) default_aspect_ratio = Ok bath →
  prepare_rooms fsqrt i =
    Ok ([("Car Porch", Float (car_w i), Float (car_d i));
         ("Lounge", lounge.1, lounge.2)]
        ++ bedroom_entries bed (seqZ 1 (bedrooms_count i))
        ++ [("Bath", bath.1, bath.2)]).
Proof.
  intros Hl Hb Ht. unfold prepare_rooms. rewrite Hl.
  destruct lounge as [lw lh]. simpl.
  rewrite (add_bedrooms_ok _ _ _ bed Hb). simpl. rewrite Ht.
  destruct bath as [tw th]. simpl. by rewrite <- ?app_assoc.
Qed.

(** A non-zero area is prepared without an exception, with complex sides
    when it is negative. *)
Lemma area_to_dims_nonzero area :
  area_ok fsqrt area →
  ∃ d, area_to_dims fsqrt area default_aspect_ratio = Ok d ∧
       ((area < 0)%Q → d = (Complex, Complex)).
Proof.
  intros [Ha Hz]. destruct (Q_dec area 0) as [[Hneg|Hpos]|E]; [| |done].
  - exists (Complex, Complex). split; [by apply area_to_dims_negative|done].
  - destruct (area_to_dims_positive fsqrt area Hpos (Hz Hpos)) as (w & h & ->).
    eexists. split; [done|]. lra.
Qed.

(** One complex side in the list and the sort dies with [TypeError]. *)
Lemma float_rooms_complex (raw : list raw_room) name w h :
  (name, w, h) ∈ raw → w = Complex ∨ h = Complex →
  float_rooms raw = Raise TypeError.
Proof.
  intros Hin Hc. induction raw as [|[[n' w'] h'] raw IH]; [by apply elem_of_nil in Hin|].
  simpl. apply elem_of_cons in Hin as [[= <- <- <-]|Hin].
  - destruct Hc as [->| ->]; [done|]. by destruct w.
  - rewrite (IH Hin). by destruct w', h'.
Qed.

Lemma float_rooms_names (raw : list raw_room) rs :
  float_rooms raw = Ok rs → room_name <$> rs = (λ r, r.1.1) <$> raw.
Proof.
  revert rs. induction raw as [|[[n w] h] raw IH]; intros rs; simpl.
  - by intros [= <-].
  - destruct w as [w_m|]; [|done]. destruct h as [h_m|]; [|done]. simpl.
    destruct (float_rooms raw) as [rs'|]; [|done]. simpl.
    intros [= <-]. csimpl. by rewrite (IH rs').
Qed.

End PreparedRuns.

(** X13.  A negative room area is not rejected: on a buildable site it
    gives complex room sides and the run dies with [TypeError] (no
    area being such that [area_to_dims] divides by zero first). *)
Theorem negative_area_is_type_error (fsqrt : Q → Q) (i : inputs)
    (build_w build_h : Z) (cell_m : Q) :
  site_grid i = Ok (build_w, build_h, cell_m) → 0 < build_w → 0 < build_h →
  area_ok fsqrt (lounge_area i) → area_ok fsqrt (bedroom_area i) →
  area_ok fsqrt (bath_area i) →
  (lounge_area i < 0)%Q ∨ (bath_area i < 0)%Q ∨
    ((bedroom_area i < 0)%Q ∧ 0 < bedrooms_count i) →
  generate fsqrt i = Raise TypeError.
Proof.
  intros Hg Hw Hh Hl Hb Ht Hneg.
  destruct (area_to_dims_nonzero fsqrt _ Hl) as (lounge & El & Hlc).
  destruct (area_to_dims_nonzero fsqrt _ Hb) as (bed & Eb & Hbc).
  destruct (area_to_dims_nonzero fsqrt _ Ht) as (bath & Et & Htc).
  unfold generate. rewrite Hg. simpl.
  assert ((build_w <=? 0) = false) as -> by (apply Z.leb_gt; lia).
  assert ((build_h <=? 0) = false) as -> by (apply Z.leb_gt; lia). simpl.
  rewrite (prepare_rooms_ok fsqrt i _ _ _ El Eb Et). simpl.
  unfold rooms_sort.
  match goal with |- context [float_rooms ?raw] =>
    assert (float_rooms raw = Raise TypeError) as ->; [|done] end.
  destruct Hneg as [H|[H|[H Hc]]].
  - apply (float_rooms_complex _ "Lounge" (lounge.1) (lounge.2)).
    + set_solver.
    + rewrite (Hlc H). by left.
  - apply (float_rooms_complex _ "Bath" (bath.1) (bath.2)).
    + set_solver.
    + rewrite (Htc H). by left.
  - apply (float_rooms_complex _ ("Bedroom " +:+ pretty 1) (bed.1) (bed.2)).
    + rewrite seqZ_cons by done. unfold bedroom_entries. csimpl. set_solver.
    + rewrite (Hbc H). by left.
Qed.

(** A lounge of -20 square metres. *)
Lemma negative_area_is_type_error_witness :
  generate sqrt6 (with_areas (-20) 12 4 default_inputs) = Raise TypeError.
Proof.
  apply (negative_area_is_type_error sqrt6 (with_areas (-20) 12 4 default_inputs)
           20 33 (inject_Z 50 / 100));
    [reflexivity | lia | lia | | | | left; reflexivity].
  all: split; [by intros E; vm_compute in E|];
    intros H E; (by vm_compute in H) || (by vm_compute in E).
Defined.

(** X14.  An area for which the square root is zero, an area of 0 in
    particular, ends the run on a buildable site with
    [ZeroDivisionError], in the division [area / w] of [area_to_dims]. *)
Theorem zero_area_is_zero_division (fsqrt : Q → Q) (i : inputs)
    (build_w build_h : Z) (cell_m : Q) :
  site_grid i = Ok (build_w, build_h, cell_m) → 0 < build_w → 0 < build_h →
  (∀ x, (x == 0)%Q → (fsqrt x == 0)%Q) →
  (lounge_area i == 0)%Q ∨ (bath_area i == 0)%Q ∨
    ((bedroom_area i == 0)%Q ∧ 0 < bedrooms_count i) →
  generate fsqrt i = Raise ZeroDivisionError.
Proof.
  intros Hg Hw Hh Hz Hzero.
  unfold generate. rewrite Hg. simpl.
  assert ((build_w <=? 0) = false) as -> by (apply Z.leb_gt; lia).
  assert ((build_h <=? 0) = false) as -> by (apply Z.leb_gt; lia). simpl.
  destruct (prepare_rooms fsqrt i) as [raw|e] eqn:Ep.
  - exfalso. apply prepare_rooms_inv in Ep
      as (lounge & bed & bath & El & Eb & Et & _).
    destruct Hzero as [H|[H|[H Hc]]].
    + by rewrite (area_to_dims_zero fsqrt _ H Hz) in El.
    + by rewrite (area_to_dims_zero fsqrt _ H Hz) in Et.
    + destruct Eb as [Eb|Eb].
      * by rewrite seqZ_cons in Eb.
      * by rewrite (area_to_dims_zero fsqrt _ H Hz) in Eb.
  - by rewrite (prepare_rooms_error fsqrt i e Ep).
Qed.

(** A bathroom of area 0. *)
Lemma zero_area_is_zero_division_witness :
  generate sqrt6 (with_areas 20 12 0 default_inputs) = Raise ZeroDivisionError.
Proof.
  apply (zero_area_is_zero_division sqrt6 (with_areas 20 12 0 default_inputs)
           20 33 (inject_Z 50 / 100));
    [reflexivity | lia | lia | | right; left; reflexivity].
  intros [n d] E. unfold Qeq in E. simpl in E.
  assert (n = 0) as -> by lia. reflexivity.
Defined.

(** ** Room names and colours *)

#[global] Instance bedroom_name_inj : Inj (=) (=) bedroom_name.
Proof.
  intros i j H. unfold bedroom_name in H. simpl in H.
  injection H as H. by apply (inj pretty).
Qed.

Lemma bedroom_name_fresh (i : Z) :
  bedroom_name i ≠ "Car Porch" ∧ bedroom_name i ≠ "Lounge" ∧
  bedroom_name i ≠ "Bath".
Proof. unfold bedroom_name. simpl. repeat split; discriminate. Qed.

Lemma prepared_names_bedrooms (n : Z) :
  prepared_names n = ["Car Porch"; "Lounge"] ++ (bedroom_name <$> seqZ 1 n) ++ ["Bath"].
Proof. reflexivity. Qed.

Lemma prepared_names_NoDup (n : Z) : NoDup (prepared_names n).
Proof.
  rewrite prepared_names_bedrooms.
  assert (∀ s, s ∈ (bedroom_name <$> seqZ 1 n) →
               s ≠ "Car Porch" ∧ s ≠ "Lounge" ∧ s ≠ "Bath") as Hf.
  { intros s Hs. apply list_elem_of_fmap in Hs as (i & -> & _).
    apply bedroom_name_fresh. }
  apply NoDup_app. split; [|split].
  - by apply (bool_decide_unpack _).
  - intros s Hs Hin. apply elem_of_app in Hin as [Hin|Hin].
    + destruct (Hf s Hin) as (H1 & H2 & _).
      apply elem_of_cons in Hs as [->|Hs]; [done|].
      by apply list_elem_of_singleton in Hs as ->.
    + apply list_elem_of_singleton in Hin as ->.
      apply elem_of_cons in Hs as [Hs|Hs]; [done|].
      by apply list_elem_of_singleton in Hs.
  - apply NoDup_app. split; [|split].
    + apply (NoDup_fmap_2 _), NoDup_seqZ.
    + intros s Hs Hin. apply list_elem_of_singleton in Hin as ->.
      by destruct (Hf _ Hs) as (_ & _ & H3).
    + apply NoDup_singleton.
Qed.

Lemma prepared_rooms_names (fsqrt : Q → Q) (i : inputs) (raw : list raw_room) :
  prepare_rooms fsqrt i = Ok raw →
  (λ r : raw_room, r.1.1) <$> raw = prepared_names (bedrooms_count i) ∧
  length raw = (3 + Z.to_nat (bedrooms_count i))%nat.
Proof.
  intros H. apply prepare_rooms_inv in H as (lounge & bed & bath & _ & _ & _ & ->).
  split.
  - rewrite prepared_names_bedrooms, !fmap_app. unfold bedroom_entries.
    rewrite <- list_fmap_compose. done.
  - rewrite !length_app. unfold bedroom_entries.
    rewrite length_fmap, length_seqZ. simpl. lia.
Qed.

(** X15.  A room preparation that goes through yields the car porch, the
    lounge, one bedroom per index from 1 to [bedrooms_count] (none for a
    count of 0 or less) and the bath, in this order and under pairwise
    distinct names. *)
Theorem prepared_rooms_named_apart (fsqrt : Q → Q) (i : inputs)
    (raw : list raw_room) :
  prepare_rooms fsqrt i = Ok raw →
  (λ r : raw_room, r.1.1) <$> raw = prepared_names (bedrooms_count i) ∧
  NoDup ((λ r : raw_room, r.1.1) <$> raw) ∧
  length raw = (3 + Z.to_nat (bedrooms_count i))%nat.
Proof.
  intros H. destruct (prepared_rooms_names fsqrt i raw H) as [Hn Hl].
  split; [done|]. split; [|done].
  rewrite Hn. apply prepared_names_NoDup.
Qed.

Lemma prepared_rooms_named_apart_witness :
  ∃ raw, prepare_rooms sqrt6 default_inputs = Ok raw ∧
    (λ r : raw_room, r.1.1) <$> raw =
      ["Car Porch"; "Lounge"; "Bedroom 1"; "Bedroom 2"; "Bedroom 3"; "Bath"] ∧
    length raw = 6%nat.
Proof.
  eexists. split; [reflexivity|].
  destruct (prepared_rooms_named_apart sqrt6 default_inputs _ eq_refl)
    as (H1 & _ & H2).
  split; [exact H1 | exact H2].
Defined.

(** The colour table after the bedroom loop. *)
Lemma cmap_fold_lookup (indices : list Z) (m : gmap string string) (n : string) :
  foldl (λ m i, <[bedroom_name i := "#bde0fe"]> m) m indices !! n =
    if decide (n ∈ (bedroom_name <$> indices)) then Some "#bde0fe" else m !! n.
Proof.
  revert m. induction indices as [|i indices IH]; intros m; simpl.
  - done.
  - rewrite IH. csimpl.
    destruct (decide (n ∈ (bedroom_name <$> indices))) as [H|H].
    + rewrite decide_True; [done|]. by right.
    + destruct (decide (n = bedroom_name i)) as [->|Hne].
      * rewrite decide_True by by left. by rewrite lookup_insert_eq.
      * rewrite decide_False.
        -- by rewrite lookup_insert_ne.
        -- intros Hin. apply elem_of_cons in Hin as [?|?]; done.
Qed.

Lemma cmap_covers_prepared (count : Z) (n : string) :
  n ∈ prepared_names count →
  ∃ c, cmap count !! n = Some c ∧ c ≠ "#cccccc".
Proof.
  intros Hn. unfold cmap.
  change (foldl _ base_cmap (seqZ 1 count))
    with (foldl (λ m i, <[bedroom_name i := "#bde0fe"]> m) base_cmap (seqZ 1 count)).
  rewrite cmap_fold_lookup.
  destruct (decide (n ∈ (bedroom_name <$> seqZ 1 count))) as [H|H].
  { by eexists. }
  rewrite prepared_names_bedrooms in Hn.
  apply elem_of_app in Hn as [Hn|Hn].
  - apply elem_of_cons in Hn as [->|Hn]; [by eexists|].
    apply list_elem_of_singleton in Hn as ->. by eexists.
  - apply elem_of_app in Hn as [Hn|Hn]; [done|].
    apply list_elem_of_singleton in Hn as ->. by eexists.
Qed.

(** The keys of the layout are names of prepared rooms. *)
Lemma layout_keys_prepared (fsqrt : Q → Q) (i : inputs) (r : result) n v :
  generate fsqrt i = Ok (Generated r) →
  res_layout r !! n = Some v →
  n ∈ prepared_names (bedrooms_count i).
Proof.
  intros H Hn. apply generate_inv in H
    as (bw & bh & raw & rooms & s & _ & _ & _ & Hp & Hs & Hk & _ & Hlay & _).
  rewrite Hlay in Hn.
  assert (n ∈ (room_name <$> rooms)) as Hin.
  { pose proof (pack_from_seen _ _ _ _ _ _ Hk n) as Hseen. simpl in Hseen.
    rewrite lookup_empty, elem_of_nil in Hseen.
    destruct (proj1 Hseen) as [[[? ?]|[]]|?]; [by left; eexists|done|done]. }
  unfold rooms_sort in Hs.
  destruct (float_rooms raw) as [rs|] eqn:Ef; [|done]. simpl in Hs.
  injection Hs as <-.
  rewrite <- (sort_desc_perm area_key rs) in Hin.
  rewrite (float_rooms_names _ _ Ef) in Hin.
  destruct (prepared_rooms_names fsqrt i raw Hp) as [Hnm _].
  rewrite <- Hnm. exact Hin.
Qed.

(** X16.  Every room of a finished run's layout has an entry in the colour
    table, so its mesh never gets the fallback colour ["#cccccc"] of
    [cmap.get]. *)
Theorem placed_rooms_have_colours (fsqrt : Q → Q) (i : inputs) (r : result)
    (name : string) (v : rect) :
  generate fsqrt i = Ok (Generated r) →
  res_layout r !! name = Some v →
  cmap (bedrooms_count i) !! name =
    Some (trace_colour (render_room (cmap (bedrooms_count i)) (res_cell_m r) name v)) ∧
  trace_colour (render_room (cmap (bedrooms_count i)) (res_cell_m r) name v)
    ≠ "#cccccc".
Proof.
  intros H Hn.
  destruct (cmap_covers_prepared (bedrooms_count i) name) as (c & Hc & Hne).
  { by eapply layout_keys_prepared. }
  destruct v as [[[x y] w] h]. unfold render_room, trace_color. simpl.
  by rewrite Hc.
Qed.

Lemma placed_rooms_have_colours_witness :
  ∃ r, generate sqrt6 default_inputs = Ok (Generated r) ∧
       trace_colour (render_room (cmap 3) (res_cell_m r) "Bedroom 2" (8, 11, 8, 6))
         ≠ "#cccccc".
Proof.
  eexists. split; [reflexivity|].
  refine (proj2 (placed_rooms_have_colours sqrt6 default_inputs _
                   "Bedroom 2" (8, 11, 8, 6) eq_refl _)).
  by vm_compute.
Defined.

(** The names of the rooms the loop reads are the prepared names. *)
Lemma sorted_room_names (fsqrt : Q → Q) (i : inputs) raw rooms :
  prepare_rooms fsqrt i = Ok raw → rooms_sort raw = Ok rooms →
  room_name <$> rooms ≡ₚ prepared_names (bedrooms_count i).
Proof.
  intros Hp Hs. unfold rooms_sort in Hs.
  destruct (float_rooms raw) as [rs|] eqn:Ef; [|done]. simpl in Hs.
  injection Hs as <-.
  rewrite <- (sort_desc_perm area_key rs).
  rewrite (float_rooms_names _ _ Ef).
  destruct (prepared_rooms_names fsqrt i raw Hp) as [Hnm _].
  rewrite <- Hnm. done.
Qed.

(** X17.  In every finished run each prepared room, and nothing else, is a
    key of the layout or an entry of the overflow list, and no room is
    both. *)
Theorem finished_run_accounts_for_rooms (fsqrt : Q → Q) (i : inputs)
    (r : result) (n : string) :
  generate fsqrt i = Ok (Generated r) →
  (n ∈ prepared_names (bedrooms_count i) ↔
     is_Some (res_layout r !! n) ∨ n ∈ res_overflow r) ∧
  ¬ (is_Some (res_layout r !! n) ∧ n ∈ res_overflow r).
Proof.
  intros H. apply generate_inv in H
    as (bw & bh & raw & rooms & s & _ & _ & _ & Hp & Hs & Hk & _ & -> & ->).
  pose proof (sorted_room_names fsqrt i raw rooms Hp Hs) as Hperm.
  split.
  - rewrite <- Hperm. rewrite (pack_from_seen _ _ _ _ _ _ Hk n). simpl.
    rewrite lookup_empty, elem_of_nil. split; [tauto|].
    intros [[[? ?]|[]]|?]; done.
  - intros [[v Hv] Hw].
    assert (NoDup (room_name <$> rooms)) as Hnd.
    { rewrite Hperm. apply prepared_names_NoDup. }
    rewrite (overflow_not_in_layout _ _ _ _ _ Hnd Hk n Hw) in Hv. done.
Qed.

Lemma finished_run_accounts_for_rooms_witness :
  ∃ r, generate sqrt6 default_inputs = Ok (Generated r) ∧
       (is_Some (res_layout r !! "Bath") ∨ "Bath" ∈ res_overflow r).
Proof.
  eexists. split; [reflexivity|].
  apply (finished_run_accounts_for_rooms sqrt6 default_inputs _ "Bath" eq_refl).
  by apply (bool_decide_unpack _).
Defined.

(** ** The box mesh *)

(** X18.  Whatever the box, [cuboid_coords] returns eight corners and
    twelve triangles; every triangle names three different corners, all of
    them among the eight. *)
Theorem cuboid_mesh_well_formed (x y dx dy dz : Q) :
  length (mesh_X (cuboid_coords x y dx dy dz)) = 8%nat ∧
  length (mesh_Y (cuboid_coords x y dx dy dz)) = 8%nat ∧
  length (mesh_Z (cuboid_coords x y dx dy dz)) = 8%nat ∧
  length (triangles (cuboid_coords x y dx dy dz)) = 12%nat ∧
  Forall (λ t : nat * nat * nat,
            let '(a, b, c) := t in
            (a < 8 ∧ b < 8 ∧ c < 8 ∧ a ≠ b ∧ b ≠ c ∧ a ≠ c)%nat)
         (triangles (cuboid_coords x y dx dy dz)).
Proof.
  do 4 (split; [reflexivity|]).
  unfold cuboid_coords, triangles. simpl. repeat constructor; lia.
Qed.

(** X19.  The eight corners are the eight vertices of the box
    [[x, x+dx] × [y, y+dy] × [0, dz]]: each corner has its coordinates among
    the bounds, and each combination of bounds is a corner. *)
Theorem cuboid_corners_are_box_vertices (x y dx dy dz : Q) :
  (∀ n p, corner (cuboid_coords x y dx dy dz) n = Some p →
     (p.1.1 = x ∨ p.1.1 = (x + dx)%Q) ∧
     (p.1.2 = y ∨ p.1.2 = (y + dy)%Q) ∧
     (p.2 = 0%Q ∨ p.2 = dz)) ∧
  (∀ px py pz,
     px ∈ [x; (x + dx)%Q] → py ∈ [y; (y + dy)%Q] → pz ∈ [0%Q; dz] →
     ∃ n, corner (cuboid_coords x y dx dy dz) n = Some (px, py, pz)).
Proof.
  split.
  - intros n p H. do 8 (destruct n as [|n]; [injection H as <-; simpl; tauto|]).
    done.
  - intros px py pz Hx Hy Hz.
    apply elem_of_cons in Hx as [->|Hx];
      [|apply list_elem_of_singleton in Hx as ->];
    (apply elem_of_cons in Hy as [->|Hy];
      [|apply list_elem_of_singleton in Hy as ->]);
    (apply elem_of_cons in Hz as [->|Hz];
      [|apply list_elem_of_singleton in Hz as ->]).
    + by exists 0%nat.
    + by exists 4%nat.
    + by exists 3%nat.
    + by exists 7%nat.
    + by exists 1%nat.
    + by exists 5%nat.
    + by exists 2%nat.
    + by exists 6%nat.
Qed.

(** X20.  Every triangle of the mesh lies in one of the six face planes of
    the box: its three corners agree in x, in y or in z. *)
Theorem cuboid_triangles_on_faces (x y dx dy dz : Q) :
  Forall (λ t, ∃ pa pb pc,
            triangle_corners (cuboid_coords x y dx dy dz) t = Some (pa, pb, pc) ∧
            ((pa.1.1 = pb.1.1 ∧ pb.1.1 = pc.1.1) ∨
             (pa.1.2 = pb.1.2 ∧ pb.1.2 = pc.1.2) ∨
             (pa.2 = pb.2 ∧ pb.2 = pc.2)))
         (triangles (cuboid_coords x y dx dy dz)).
Proof.
  unfold cuboid_coords, triangles. simpl.
  repeat constructor; do 3 eexists; (split; [reflexivity|]); simpl; tauto.
Qed.



(** ** The site grid and the stop *)

(** X23.  When no room is wider than the buildable grid, every placed
    rectangle lies within the grid on all four sides. *)
Theorem rooms_that_fit_stay_inside (build_w build_h : Z) (cell_m : Q)
    (rooms : list room) :
  ¬ (cell_m == 0)%Q →
  Forall (fits_row build_w cell_m) rooms →
  ∃ s, pack build_w build_h cell_m rooms = Ok s ∧
       ∀ n x y w h, layout s !! n = Some (x, y, w, h) →
         0 ≤ x ∧ 0 ≤ y ∧ x + w ≤ build_w ∧ y + h ≤ build_h.
Proof.
  intros Hc Hall.
  destruct (pack_contained_when_rooms_fit build_w build_h cell_m rooms Hc Hall)
    as (s & Hs & Hin).
  exists s. split; [done|]. intros n x y w h Hn. exact (Hin n _ Hn).
Qed.

Lemma rooms_that_fit_stay_inside_witness :
  ∃ s, pack 20 33 (1 # 2) four_rooms = Ok s ∧
       ∀ x y w h, layout s !! "Bedroom 2" = Some (x, y, w, h) →
         0 ≤ x ∧ 0 ≤ y ∧ x + w ≤ 20 ∧ y + h ≤ 33.
Proof.
  destruct (rooms_that_fit_stay_inside 20 33 (1 # 2) four_rooms)
    as (s & Hs & Hin); [discriminate | |].
  { repeat constructor; intros w [= <-]; vm_compute; discriminate. }
  exists s. split; [exact Hs|]. intros x y w h. apply Hin.
Defined.

(** X24.  The run stops with [NoBuildableSpace] only for that reason: the
    grid was computed and its buildable width or height is not positive. *)
Theorem stop_means_no_buildable_space (fsqrt : Q → Q) (i : inputs) :
  generate fsqrt i = Ok NoBuildableSpace →
  ∃ build_w build_h cell_m,
    site_grid i = Ok (build_w, build_h, cell_m) ∧
    (build_w ≤ 0 ∨ build_h ≤ 0).
Proof.
  unfold generate.
  destruct (site_grid i) as [[[bw bh] cell_m]|] eqn:Eg; [|done]. simpl.
  destruct (bw <=? 0) eqn:Cw.
  { intros _. exists bw, bh, cell_m. split; [done|]. left. by apply Z.leb_le. }
  destruct (bh <=? 0) eqn:Ch.
  { intros _. exists bw, bh, cell_m. split; [done|]. right. by apply Z.leb_le. }
  simpl.
  destruct (prepare_rooms fsqrt i) as [raw|]; [|done]. simpl.
  destruct (rooms_sort raw) as [rooms|]; [|done]. simpl.
  destruct (pack bw bh cell_m rooms) as [s|]; [|done]. simpl.
  by destruct (coverage_pct _ _ _ _).
Qed.

Lemma stop_means_no_buildable_space_witness :
  ∃ build_w build_h cell_m,
    site_grid no_space_inputs = Ok (build_w, build_h, cell_m) ∧
    (build_w ≤ 0 ∨ build_h ≤ 0).
Proof.
  apply (stop_means_no_buildable_space sqrt6 no_space_inputs). reflexivity.
Defined.

(** X25.  Each setback costs at least one cell, also a setback of zero or
    less: the buildable grid is at least two cells narrower and two cells
    shorter than the plot grid, so a plot of fewer than three cells either
    way is never buildable. *)
Theorem setbacks_cost_two_cells (i : inputs) (build_w build_h : Z) (cell_m : Q) :
  site_grid i = Ok (build_w, build_h, cell_m) →
  ∃ grid_w grid_h,
    to_grid (PLOT_WIDTH i) (grid_snap_cm i) = Ok (grid_w, cell_m) ∧
    to_grid (PLOT_DEPTH i) (grid_snap_cm i) = Ok (grid_h, cell_m) ∧
    build_w ≤ grid_w - 2 ∧ build_h ≤ grid_h - 2.
Proof.
  unfold site_grid. destruct (Z.eq_dec (grid_snap_cm i) 0) as [E|NE].
  { by rewrite E. }
  rewrite !to_grid_ok by done. simpl. intros [= <- <- <-].
  do 2 eexists. do 2 (split; [reflexivity|]). lia.
Qed.

Lemma setbacks_cost_two_cells_witness :
  ∃ grid_w grid_h,
    to_grid 14 50 = Ok (grid_w, (inject_Z 50 / 100)%Q) ∧
    to_grid 24 50 = Ok (grid_h, (inject_Z 50 / 100)%Q) ∧
    23 ≤ grid_w - 2 ∧ 41 ≤ grid_h - 2.
Proof.
  apply (setbacks_cost_two_cells zero_setback_inputs 23 41 (inject_Z 50 / 100)).
  reflexivity.
Defined.
